(** * Quantum Chess signaling server: rooms, pairing API and relay

    A shallow embedding of [server/main.py].  The module keeps one
    process-wide dictionary [rooms] from room identifiers to [Room]
    objects, two request/response operations ([create_room],
    [join_room]) and one coroutine per websocket ([websocket_endpoint]).

    How the Python is read:
    - Python integers are unbounded: seeds and limits are [Z], [^] is
      [Z.lxor].
    - [rooms] holds references.  A handler keeps its [room] object in a
      local variable while the dictionary may drop or replace the entry,
      so the model has a store of Room objects ([heap], addressed by
      [loc]) and the dictionary maps identifiers to locations.
    - Websocket handles are compared by identity (Starlette sets
      [__eq__ = object.__eq__]); a handle is a [nat].  A handle and a
      Room object are truthy, [None] is falsy.
    - Everything the server does on a socket ([accept], [close],
      [send_json]) is appended to [trace].  Whether a [send_json]
      attempt raises, and what, is decided by the transport, given as
      an oracle [net]; [accept] and [close] do not raise.
    - [datetime.now()] and [secrets.token_urlsafe(6)] are inputs: the
      clock readings are [Z] microseconds, the tokens a list of draws.
      The collision loop of [create_room] has no result when the draws
      run out.
    - Strings are byte strings.  [upper] is [str.upper] on the strings
      that satisfy [is_ascii]; on other identifiers Python folds more
      letters.  [join_room_at] and [websocket_endpoint_at] are the two
      lookups past their call of [str.upper()], for whatever identifier
      it returned.
    - The coroutine is cut at [receive_json()]: a new connection runs up
      to its first wait ([websocket_endpoint]), and is resumed once per
      inbound message or failure ([websocket_receive]).  Each piece runs
      to its end before another handler runs. *)

From stdpp Require Import gmap strings list fin_maps.
From Stdlib Require Import ZArith Ascii String.

Open Scope Z_scope.
Open Scope string_scope.

(** ** Values *)

(** Connection handles and object addresses are plain numbers. *)
Abbreviation WebSocket := nat (only parsing).
Abbreviation loc := nat (only parsing).

#[local] Unset Elimination Schemes.
Inductive Json :=
| JNull
| JBool (b : bool)
| JInt (z : Z)
| JStr (s : string)
| JArr (items : list Json)
| JObj (fields : list (string * Json)).
#[local] Set Elimination Schemes.

Definition json_of_seed (o : option Z) : Json :=
  match o with
  | Some z => JInt z
  | None => JNull
  end.

Inductive Exn :=
| HTTPException (status_code : Z) (detail : string)
| WebSocketDisconnect
| KeyError (key : string)
| OtherError (name : string).

Inductive Event :=
| Accept (ws : WebSocket)
| Close (ws : WebSocket) (code : Z) (reason : string)
| SendJson (ws : WebSocket) (data : Json).

(** ** class Room *)

Record Room := mkRoom {
  room_id : string;
  host_seed : Z;
  max_superpositions : Z;
  guest_seed : option Z;
  host_ws : option WebSocket;
  guest_ws : option WebSocket;
  created_at : Z
}.

(** [Room.__init__]; [now] is the reading of [datetime.now()]. *)
Definition Room_init (rid : string) (seed : Z) (max_sup : Z) (now : Z) : Room :=
  {| room_id := rid; host_seed := seed; max_superpositions := max_sup;
     guest_seed := None; host_ws := None; guest_ws := None;
     created_at := now |}.

Definition set_guest_seed (v : option Z) (r : Room) : Room :=
  {| room_id := room_id r; host_seed := host_seed r;
     max_superpositions := max_superpositions r;
     guest_seed := v; host_ws := host_ws r; guest_ws := guest_ws r;
     created_at := created_at r |}.

Definition set_host_ws (v : option WebSocket) (r : Room) : Room :=
  {| room_id := room_id r; host_seed := host_seed r;
     max_superpositions := max_superpositions r;
     guest_seed := guest_seed r; host_ws := v; guest_ws := guest_ws r;
     created_at := created_at r |}.

Definition set_guest_ws (v : option WebSocket) (r : Room) : Room :=
  {| room_id := room_id r; host_seed := host_seed r;
     max_superpositions := max_superpositions r;
     guest_seed := guest_seed r; host_ws := host_ws r; guest_ws := v;
     created_at := created_at r |}.

Definition is_None {A} (o : option A) : bool :=
  match o with
  | None => true
  | Some _ => false
  end.

(** [host_ws is not None and guest_ws is not None] *)
Definition is_full (r : Room) : bool :=
  negb (is_None (host_ws r)) && negb (is_None (guest_ws r)).

Definition game_seed (r : Room) : option Z :=
  match guest_seed r with
  | None => None
  | Some g => Some (Z.lxor (host_seed r) g)
  end.

Definition get_other_ws (r : Room) (ws : WebSocket) : option WebSocket :=
  if decide (Some ws = host_ws r) then guest_ws r
  else if decide (Some ws = guest_ws r) then host_ws r
  else None.

(** ** Request and response models *)

Record CreateRoomRequest := mkCreateRoomRequest {
  crq_seed : Z;
  maxSuperpositions : Z
}.

Record CreateRoomResponse := mkCreateRoomResponse {
  crs_room_id : string;
  crs_player_color : string;
  crs_max_superpositions : Z
}.

Record JoinRoomRequest := mkJoinRoomRequest {
  jrq_room_id : string;
  jrq_seed : Z
}.

Record JoinRoomResponse := mkJoinRoomResponse {
  jrs_room_id : string;
  jrs_player_color : string;
  jrs_game_seed : Z;
  jrs_max_superpositions : Z
}.

(** ** Server state and the monad of handlers *)

Record Server := mkServer {
  rooms : gmap string loc;
  heap : list Room;
  trace : list Event
}.

Definition empty_server : Server :=
  {| rooms := ∅; heap := []; trace := [] |}.

Inductive Res (A : Type) :=
| Ret (a : A)
| Raise (e : Exn).
Arguments Ret {A} a.
Arguments Raise {A} e.

(** A computation either returns, raises a Python exception (keeping the
    mutations made so far), or has no result in the model ([None]): the
    collision loop of [create_room] ran out of draws, or a location is
    not allocated. *)
Definition M (A : Type) : Type := Server -> option (Res A * Server).

Definition ret {A} (a : A) : M A := fun s => Some (Ret a, s).

Definition raise {A} (e : Exn) : M A := fun s => Some (Raise e, s).

Definition bind {A B} (m : M A) (k : A -> M B) : M B := fun s =>
  match m s with
  | Some (Ret a, s') => k a s'
  | Some (Raise e, s') => Some (Raise e, s')
  | None => None
  end.

Declare Scope py_scope.
Delimit Scope py_scope with py.
Notation "x <- c ;; k" := (bind c (fun x => k))
  (at level 100, c at next level, right associativity) : py_scope.
Notation "c ;; k" := (bind c (fun _ => k))
  (at level 100, right associativity) : py_scope.
Open Scope py_scope.

(** [try: body except <classes matched by handler>: ...] *)
Definition try_except {A} (body : M A) (handler : Exn -> option (M A)) : M A :=
  fun s =>
    match body s with
    | Some (Raise e, s') =>
        match handler e with
        | Some h => h s'
        | None => Some (Raise e, s')
        end
    | other => other
    end.

Fixpoint for_each {A} (l : list A) (body : A -> M unit) : M unit :=
  match l with
  | [] => ret tt
  | x :: rest => body x ;; for_each rest body
  end.

Fixpoint filter_m {A} (p : A -> M bool) (l : list A) : M (list A) :=
  match l with
  | [] => ret []
  | x :: rest =>
      b <- p x ;;
      ys <- filter_m p rest ;;
      ret (if b then x :: ys else ys)
  end.

(** *** The dictionary [rooms] and the object store *)

Definition rooms_get (k : string) : M (option loc) := fun s =>
  Some (Ret (rooms s !! k), s).

Definition rooms_items : M (list (string * loc)) := fun s =>
  Some (Ret (map_to_list (rooms s)), s).

Definition rooms_set (k : string) (l : loc) : M unit := fun s =>
  Some (Ret tt, {| rooms := <[k := l]> (rooms s); heap := heap s; trace := trace s |}).

(** [del rooms[k]] raises [KeyError] on a missing key. *)
Definition rooms_del (k : string) : M unit := fun s =>
  match rooms s !! k with
  | Some _ =>
      Some (Ret tt, {| rooms := delete k (rooms s); heap := heap s; trace := trace s |})
  | None => Some (Raise (KeyError k), s)
  end.

Definition new_room (r : Room) : M loc := fun s =>
  Some (Ret (List.length (heap s)),
        {| rooms := rooms s; heap := heap s ++ [r]; trace := trace s |}).

Definition deref (l : loc) : M Room := fun s =>
  match heap s !! l with
  | Some r => Some (Ret r, s)
  | None => None
  end.

Definition assign (l : loc) (f : Room -> Room) : M unit := fun s =>
  match heap s !! l with
  | Some r =>
      Some (Ret tt, {| rooms := rooms s; heap := <[l := f r]> (heap s); trace := trace s |})
  | None => None
  end.

(** *** Socket operations *)

Definition emit (e : Event) : M unit := fun s =>
  Some (Ret tt, {| rooms := rooms s; heap := heap s; trace := trace s ++ [e] |}).

Definition Net := WebSocket -> option Exn.

(** A transport on which every send is delivered. *)
Definition reliable : Net := fun _ => None.

Definition ws_accept (ws : WebSocket) : M unit := emit (Accept ws).

Definition ws_close (ws : WebSocket) (code : Z) (reason : string) : M unit :=
  emit (Close ws code reason).

Definition send_json (net : Net) (ws : WebSocket) (data : Json) : M unit :=
  emit (SendJson ws data) ;;
  match net ws with
  | None => ret tt
  | Some e => raise e
  end.

Definition msg_peer_joined (seed : option Z) : Json :=
  JObj [("type", JStr "peer_joined"); ("game_seed", json_of_seed seed)].

Definition msg_connected (role : string) (seed : option Z) : Json :=
  JObj [("type", JStr "connected"); ("role", JStr role);
        ("game_seed", json_of_seed seed)].

Definition msg_peer_disconnected : Json :=
  JObj [("type", JStr "peer_disconnected")].

(** ** Room identifiers

    [upper] is [str.upper()] on ASCII strings ([is_ascii] below): it
    maps the letters a-z to A-Z and keeps every other byte.  It is
    exact on the identifiers the server generates, which are drawn
    from the URL-safe alphabet.  On a caller's spelling with letters
    outside ASCII [str.upper()] folds more than [upper] does: what
    holds of every spelling is stated over [join_room_at] and
    [websocket_endpoint_at], for the identifier [str.upper()] returned,
    and a property that depends on how a caller's spelling is folded
    assumes [is_ascii] of it. *)

Definition upper_ascii (c : ascii) : ascii :=
  let n := nat_of_ascii c in
  if ((97 <=? n) && (n <=? 122))%nat then ascii_of_nat (n - 32) else c.

Fixpoint upper (s : string) : string :=
  match s with
  | EmptyString => EmptyString
  | String c rest => String (upper_ascii c) (upper rest)
  end.

(** [s[:n]] *)
Fixpoint slice_to (n : nat) (s : string) : string :=
  match n, s with
  | O, _ => EmptyString
  | S _, EmptyString => EmptyString
  | S m, String c rest => String c (slice_to m rest)
  end.

(** [secrets.token_urlsafe(6)[:8].upper()], [token] being the draw. *)
Definition generate_room_id (token : string) : string :=
  upper (slice_to 8 token).

(** [while room_id in rooms: room_id = generate_room_id()]; [None] when
    the draws are used up before a free identifier comes. *)
Fixpoint while_in_rooms (rs : gmap string loc) (rid : string)
    (draws : list string) {struct draws} : option string :=
  if bool_decide (is_Some (rs !! rid)) then
    match draws with
    | [] => None
    | token :: rest => while_in_rooms rs (generate_room_id token) rest
    end
  else Some rid.

Definition fresh_room_id (draws : list string) : M string := fun s =>
  match draws with
  | [] => None
  | token :: rest =>
      match while_in_rooms (rooms s) (generate_room_id token) rest with
      | Some rid => Some (Ret rid, s)
      | None => None
      end
  end.

(** ** Expiry *)

(** [timedelta(hours=1)] in microseconds. *)
Definition one_hour : Z := 3600 * 1000000.

Definition cleanup_old_rooms (now : Z) : M unit :=
  let cutoff := now - one_hour in
  items <- rooms_items ;;
  expired <- filter_m
    (fun '(rid, room) => r <- deref room ;; ret (bool_decide (created_at r < cutoff)))
    items ;;
  for_each expired.*1 rooms_del.

(** ** Pairing API *)

Definition create_room (now_sweep now_init : Z) (draws : list string)
    (request : CreateRoomRequest) : M CreateRoomResponse :=
  cleanup_old_rooms now_sweep ;;
  rid <- fresh_room_id draws ;;
  let max_sup := Z.max 1 (Z.min 5 (maxSuperpositions request)) in
  room <- new_room (Room_init rid (crq_seed request) max_sup now_init) ;;
  rooms_set rid room ;;
  ret {| crs_room_id := rid; crs_player_color := "white";
         crs_max_superpositions := max_sup |}.

(** [room.game_seed or 0] *)
Definition or_zero (o : option Z) : Z :=
  match o with
  | Some v => if Z.eqb v 0 then 0 else v
  | None => 0
  end.
Arguments or_zero : simpl never.

Definition join_room (request : JoinRoomRequest) : M JoinRoomResponse :=
  room <- rooms_get (upper (jrq_room_id request)) ;;
  match room with
  | None => raise (HTTPException 404 "Room not found")
  | Some room =>
      r <- deref room ;;
      if is_full r then raise (HTTPException 400 "Room is full")
      else
        assign room (set_guest_seed (Some (jrq_seed request))) ;;
        r <- deref room ;;
        ret {| jrs_room_id := room_id r; jrs_player_color := "black";
               jrs_game_seed := or_zero (game_seed r);
               jrs_max_superpositions := max_superpositions r |}
  end.

(** ** The websocket coroutine *)

(** The local variables of a running [websocket_endpoint]. *)
Record Session := mkSession {
  websocket : WebSocket;
  sess_room_id : string;
  sess_room : loc;
  sess_role : string
}.

(** Lines 182-207: lookup, accept, slot assignment.  [None] is the
    early [return]. *)
Definition websocket_endpoint_bind (net : Net) (ws : WebSocket)
    (room_id0 : string) : M (option Session) :=
  let rid := upper room_id0 in
  room <- rooms_get rid ;;
  match room with
  | None => ws_close ws 4004 "Room not found" ;; ret None
  | Some room =>
      ws_accept ws ;;
      r <- deref room ;;
      if is_None (host_ws r) then
        assign room (set_host_ws (Some ws)) ;;
        ret (Some (mkSession ws rid room "host"))
      else if is_None (guest_ws r) then
        assign room (set_guest_ws (Some ws)) ;;
        r <- deref room ;;
        match host_ws r with
        | Some h => send_json net h (msg_peer_joined (game_seed r))
        | None => ret tt
        end ;;
        ret (Some (mkSession ws rid room "guest"))
      else
        ws_close ws 4001 "Room is full" ;; ret None
  end.

(** Lines 226-243: the [except WebSocketDisconnect] block. *)
Definition on_disconnect (net : Net) (sess : Session) : M unit :=
  let ws := websocket sess in
  let room := sess_room sess in
  r <- deref room ;;
  (if decide (host_ws r = Some ws) then assign room (set_host_ws None)
   else if decide (guest_ws r = Some ws) then assign room (set_guest_ws None)
   else ret tt) ;;
  r <- deref room ;;
  match get_other_ws r ws with
  | Some other_ws =>
      try_except (send_json net other_ws msg_peer_disconnected)
                 (fun _ => Some (ret tt))
  | None => ret tt
  end ;;
  r <- deref room ;;
  if is_None (host_ws r) && is_None (guest_ws r)
  then rooms_del (sess_room_id sess)
  else ret tt.

(** The [try ... except WebSocketDisconnect] around lines 210-224; the
    result [None] says the coroutine has ended. *)
Definition guarded (net : Net) (sess : Session) (body : M unit)
  : M (option Session) :=
  try_except (body ;; ret (Some sess))
    (fun e =>
       match e with
       | WebSocketDisconnect => Some (on_disconnect net sess ;; ret None)
       | _ => None
       end).

(** Lines 211-215: the role confirmation. *)
Definition send_connected (net : Net) (sess : Session) : M unit :=
  r <- deref (sess_room sess) ;;
  send_json net (websocket sess) (msg_connected (sess_role sess) (game_seed r)).

(** Lines 219-224: one turn of the relay loop; [inbound] is what
    [receive_json()] does, a message or an exception. *)
Definition relay (net : Net) (sess : Session) (inbound : Res Json) : M unit :=
  data <- (match inbound with
           | Ret d => ret d
           | Raise e => raise e
           end) ;;
  r <- deref (sess_room sess) ;;
  match get_other_ws r (websocket sess) with
  | Some other_ws => send_json net other_ws data
  | None => ret tt
  end.

(** A new connection, up to its first wait in [receive_json]. *)
Definition websocket_endpoint (net : Net) (ws : WebSocket)
    (room_id0 : string) : M (option Session) :=
  bound <- websocket_endpoint_bind net ws room_id0 ;;
  match bound with
  | None => ret None
  | Some sess => guarded net sess (send_connected net sess)
  end.

(** The coroutine resumed by [receive_json()]. *)
Definition websocket_receive (net : Net) (sess : Session)
    (inbound : Res Json) : M (option Session) :=
  guarded net sess (relay net sess inbound).

(** The peer closed: [receive_json()] raises [WebSocketDisconnect]. *)
Definition websocket_disconnect (net : Net) (sess : Session)
  : M (option Session) :=
  websocket_receive net sess (Raise WebSocketDisconnect).

(** ** Observing a run *)

Definition result {A} (m : M A) (s : Server) : option (Res A) :=
  fst <$> m s.

Definition exec {A} (m : M A) (s : Server) : Server :=
  match m s with
  | Some (_, s') => s'
  | None => s
  end.

Definition log (events : list Event) (s : Server) : Server :=
  {| rooms := rooms s; heap := heap s; trace := trace s ++ events |}.

Definition store (l : loc) (r : Room) (s : Server) : Server :=
  {| rooms := rooms s; heap := <[l := r]> (heap s); trace := trace s |}.

(** Every registered location is allocated: Python references never
    dangle. *)
Definition allocated (s : Server) : Prop :=
  ∀ k l, rooms s !! k = Some l → is_Some (heap s !! l).

(** A room is registered under its own identifier. *)
Definition consistent (s : Server) : Prop :=
  ∀ k l, rooms s !! k = Some l → ∃ r, heap s !! l = Some r ∧ room_id r = k.

(** The slot left empty by a disconnecting connection. *)
Definition unbind (ws : WebSocket) (r : Room) : Room :=
  if decide (host_ws r = Some ws) then set_host_ws None r
  else if decide (guest_ws r = Some ws) then set_guest_ws None r
  else r.

(** [max(1, min(5, m))], the clamp of [create_room]. *)
Definition clamp (m : Z) : Z := Z.max 1 (Z.min 5 m).

(** The test of the list comprehension, read off the store. *)
Definition expired_at (cutoff : Z) (s : Server) (item : string * loc) : bool :=
  match heap s !! item.2 with
  | Some r => bool_decide (created_at r < cutoff)
  | None => false
  end.

(** The two slots of a room never hold the same connection. *)
Definition distinct_slots (r : Room) : Prop :=
  ∀ w, host_ws r = Some w → guest_ws r ≠ Some w.

(** [m] keeps the invariant [I], however it ends. *)
Definition preserves {A} (I : Server → Prop) (m : M A) : Prop :=
  ∀ s res s', I s → m s = Some (res, s') → I s'.

(** ** A sample run

    The usual scenario: a room is created with seed 42,
    joined with seed 17, then the host and the guest connect.  The other
    states are variations used as test inputs. *)
Module Sample.
Definition token : string := "q7Zk-mP_".
Definition rid : string := "Q7ZK-MP_".
Definition request : CreateRoomRequest := mkCreateRoomRequest 42 2.

Definition created : Server :=
  exec (create_room 0 0 [token] request) empty_server.
Definition joined : Server :=
  exec (join_room (mkJoinRoomRequest "q7zk-mp_" 17)) created.
Definition host_on : Server :=
  exec (websocket_endpoint reliable 1%nat rid) joined.
Definition paired : Server :=
  exec (websocket_endpoint reliable 2%nat rid) host_on.

Definition host_session : Session := mkSession 1%nat rid 0%nat "host".
Definition guest_session : Session := mkSession 2%nat rid 0%nat "guest".

(** The host connects to a room nobody has joined. *)
Definition host_unjoined : Server :=
  exec (websocket_endpoint reliable 1%nat rid) created.

(** Two hours later someone else creates a room; the sweep drops the
    first room while its host is still connected. *)
Definition swept : Server :=
  exec (create_room (2 * one_hour) (2 * one_hour) ["Zz9-_aBc"] request)
       host_unjoined.
End Sample.

(** ** Status endpoints and shutdown *)

(** [len(rooms)] *)
Definition rooms_len : M Z := fun s =>
  Some (Ret (Z.of_nat (size (rooms s))), s).

Definition root : M Json :=
  active_rooms <- rooms_len ;;
  ret (JObj [("name", JStr "Quantum Chess Signaling Server");
             ("version", JStr "1.0.0");
             ("status", JStr "running");
             ("endpoints",
              JObj [("health", JStr "/api/health");
                    ("create_room", JStr "POST /api/rooms");
                    ("join_room", JStr "POST /api/rooms/join");
                    ("websocket", JStr "/ws/{room_id}")]);
             ("active_rooms", JInt active_rooms)]).

Definition health_check : M Json :=
  n <- rooms_len ;;
  ret (JObj [("status", JStr "ok"); ("rooms", JInt n)]).

(** [rooms.clear()] *)
Definition rooms_clear : M unit := fun s =>
  Some (Ret tt, {| rooms := ∅; heap := heap s; trace := trace s |}).

(** The two halves of [lifespan], before and after its [yield]; each
    returns the lines it prints. *)
Definition lifespan_startup : M (list string) :=
  ret ["🚀 Quantum Chess Signaling Server starting..."].

Definition lifespan_shutdown : M (list string) :=
  let printed := ["👋 Signaling server shutting down..."] in
  rooms_clear ;;
  ret printed.

(** ** The whole coroutine *)

(** Lines 218-224, [while True], over the inbound events that arrive;
    when none is left the coroutine waits in [receive_json()]. *)
Fixpoint relay_loop (net : Net) (sess : Session) (inbound : list (Res Json))
  : M unit :=
  match inbound with
  | [] => ret tt
  | x :: rest => relay net sess x ;; relay_loop net sess rest
  end.

(** [websocket_endpoint] from the lookup to the end of the events. *)
Definition websocket_session (net : Net) (ws : WebSocket) (room_id0 : string)
    (inbound : list (Res Json)) : M (option Session) :=
  bound <- websocket_endpoint_bind net ws room_id0 ;;
  match bound with
  | None => ret None
  | Some sess =>
      guarded net sess (send_connected net sess ;; relay_loop net sess inbound)
  end.

(** The same run, resumed event by event. *)
Fixpoint receive_all (net : Net) (sess : Session) (inbound : list (Res Json))
  : M (option Session) :=
  match inbound with
  | [] => ret (Some sess)
  | x :: rest =>
      running <- websocket_receive net sess x ;;
      match running with
      | Some sess' => receive_all net sess' rest
      | None => ret None
      end
  end.

(** ** Identifiers, as strings *)


Fixpoint string_forall (p : ascii → bool) (s : string) : bool :=
  match s with
  | EmptyString => true
  | String c rest => p c && string_forall p rest
  end.

(** ** The server and its connections

    The entry points as transitions.  Besides the server state a world
    records the coroutines that are waiting in [receive_json()] and the
    handles that have been given out: every new connection comes with a
    handle of its own. *)

Record World := mkWorld {
  server : Server;
  sessions : list Session;
  handles : list WebSocket
}.

Definition initial : World :=
  {| server := empty_server; sessions := []; handles := [] |}.

(** The coroutines other than the one that owns [ws]. *)
Definition others (ws : WebSocket) (l : list Session) : list Session :=
  List.filter (fun x => negb (Nat.eqb (websocket x) ws)) l.

Definition after_connect (res : Res (option Session)) (l : list Session)
  : list Session :=
  match res with
  | Ret (Some sess) => sess :: l
  | _ => l
  end.

Definition after_receive (sess : Session) (res : Res (option Session))
    (l : list Session) : list Session :=
  match res with
  | Ret (Some _) => l
  | _ => others (websocket sess) l
  end.

Inductive step : World → World → Prop :=
| step_create now_sweep now_init draws req w res s' :
    create_room now_sweep now_init draws req (server w) = Some (res, s') →
    step w {| server := s'; sessions := sessions w; handles := handles w |}
| step_join req w res s' :
    join_room req (server w) = Some (res, s') →
    step w {| server := s'; sessions := sessions w; handles := handles w |}
| step_connect net ws rid w res s' :
    ws ∉ handles w →
    websocket_endpoint net ws rid (server w) = Some (res, s') →
    step w {| server := s'; sessions := after_connect res (sessions w);
              handles := ws :: handles w |}
| step_receive net sess inbound w res s' :
    sess ∈ sessions w →
    websocket_receive net sess inbound (server w) = Some (res, s') →
    step w {| server := s'; sessions := after_receive sess res (sessions w);
              handles := handles w |}.

Inductive reachable : World → Prop :=
| reachable_initial : reachable initial
| reachable_step w w' : reachable w → step w w' → reachable w'.

(** What is true of every room ever created. *)
Definition room_ok (r : Room) : Prop :=
  (1 ≤ max_superpositions r ≤ 5)%Z
  ∧ upper (room_id r) = room_id r
  ∧ (String.length (room_id r) ≤ 8)%nat
  ∧ distinct_slots r.

(** A waiting coroutine holds a room under the identifier it was
    registered with, and its socket sits in the slot of its role. *)
Definition session_ok (s : Server) (sess : Session) : Prop :=
  ∃ r, heap s !! sess_room sess = Some r
       ∧ room_id r = sess_room_id sess
       ∧ ((sess_role sess = "host" ∧ host_ws r = Some (websocket sess))
          ∨ (sess_role sess = "guest" ∧ guest_ws r = Some (websocket sess))).

Definition world_ok (w : World) : Prop :=
  consistent (server w)
  ∧ (∀ l r, heap (server w) !! l = Some r →
       room_ok r
       ∧ ∀ x, host_ws r = Some x ∨ guest_ws r = Some x → x ∈ handles w)
  ∧ (∀ sess, sess ∈ sessions w →
       websocket sess ∈ handles w ∧ session_ok (server w) sess)
  ∧ (∀ a b, a ∈ sessions w → b ∈ sessions w → websocket a = websocket b → a = b).

(** How a connection attempt that found room [r] can leave it: bound in
    the host or the guest slot under that role, or bound and unbound
    again by the [except] block. *)
Inductive admitted (ws : WebSocket) (r : Room) : Room → option string → Prop :=
| admitted_host :
    host_ws r = None →
    admitted ws r (set_host_ws (Some ws) r) (Some "host")
| admitted_guest :
    host_ws r ≠ None → guest_ws r = None →
    admitted ws r (set_guest_ws (Some ws) r) (Some "guest")
| admitted_host_gone :
    host_ws r = None →
    admitted ws r (unbind ws (set_host_ws (Some ws) r)) None
| admitted_guest_gone :
    host_ws r ≠ None → guest_ws r = None →
    admitted ws r (unbind ws (set_guest_ws (Some ws) r)) None.

(** ** The lookups past [str.upper()]

    A caller may spell an identifier with letters outside ASCII, which
    [str.upper()] folds too.  What the code does after that call depends
    on the spelling only through the identifier returned; these are
    [join_room] from line 161 and [websocket_endpoint] from line 183
    for that identifier [rid]. *)

Definition is_ascii (s : string) : bool :=
  string_forall (fun c => (nat_of_ascii c <? 128)%nat) s.

Definition join_room_at (rid : string) (seed : Z) : M JoinRoomResponse :=
  room <- rooms_get rid ;;
  match room with
  | None => raise (HTTPException 404 "Room not found")
  | Some room =>
      r <- deref room ;;
      if is_full r then raise (HTTPException 400 "Room is full")
      else
        assign room (set_guest_seed (Some seed)) ;;
        r <- deref room ;;
        ret {| jrs_room_id := room_id r; jrs_player_color := "black";
               jrs_game_seed := or_zero (game_seed r);
               jrs_max_superpositions := max_superpositions r |}
  end.

Definition websocket_endpoint_bind_at (net : Net) (ws : WebSocket)
    (rid : string) : M (option Session) :=
  room <- rooms_get rid ;;
  match room with
  | None => ws_close ws 4004 "Room not found" ;; ret None
  | Some room =>
      ws_accept ws ;;
      r <- deref room ;;
      if is_None (host_ws r) then
        assign room (set_host_ws (Some ws)) ;;
        ret (Some (mkSession ws rid room "host"))
      else if is_None (guest_ws r) then
        assign room (set_guest_ws (Some ws)) ;;
        r <- deref room ;;
        match host_ws r with
        | Some h => send_json net h (msg_peer_joined (game_seed r))
        | None => ret tt
        end ;;
        ret (Some (mkSession ws rid room "guest"))
      else
        ws_close ws 4001 "Room is full" ;; ret None
  end.

Definition websocket_endpoint_at (net : Net) (ws : WebSocket)
    (rid : string) : M (option Session) :=
  bound <- websocket_endpoint_bind_at net ws rid ;;
  match bound with
  | None => ret None
  | Some sess => guarded net sess (send_connected net sess)
  end.

(** The sample room after the guest has connected and a later
    [create_room] has swept it. *)
Definition sample_paired_swept : Server :=
  exec (create_room (2 * one_hour) (2 * one_hour) ["Zz9-_aBc"] Sample.request)
       Sample.paired.

(** * Properties *)

(** ** Strings and identifiers *)

Lemma upper_ascii_idem c : upper_ascii (upper_ascii c) = upper_ascii c.
Proof. destruct c as [[] [] [] [] [] [] [] []]; reflexivity. Qed.

Lemma upper_idem s : upper (upper s) = upper s.
Proof.
  induction s as [|c s IH]; simpl; [reflexivity|].
  by rewrite upper_ascii_idem, IH.
Qed.

Lemma upper_length s : String.length (upper s) = String.length s.
Proof. induction s as [|c s IH]; simpl; [reflexivity | by rewrite IH]. Qed.

Lemma slice_to_length n s : (String.length (slice_to n s) ≤ n)%nat.
Proof.
  revert s; induction n as [|n IH]; intros [|c s]; simpl; try lia.
  specialize (IH s). lia.
Qed.

Lemma generate_room_id_length token :
  (String.length (generate_room_id token) ≤ 8)%nat.
Proof. unfold generate_room_id. rewrite upper_length. apply slice_to_length. Qed.

Lemma generate_room_id_upper token :
  upper (generate_room_id token) = generate_room_id token.
Proof. apply upper_idem. Qed.

Lemma while_in_rooms_spec rs draws rid0 rid :
  while_in_rooms rs rid0 draws = Some rid →
  rs !! rid = None ∧ (rid = rid0 ∨ ∃ token, token ∈ draws ∧ rid = generate_room_id token).
Proof.
  revert rid0; induction draws as [|token rest IH]; intros rid0; simpl.
  - case_bool_decide as Hin; [discriminate|]. intros [= <-]. split; [|by left].
    by apply eq_None_not_Some.
  - case_bool_decide as Hin.
    + intros H. destruct (IH _ H) as [Hfree [->|(t & Ht & ->)]]; split; try done.
      * right. exists token. split; [left|done].
      * right. exists t. split; [by right|done].
    + intros [= <-]. split; [|by left]. by apply eq_None_not_Some.
Qed.

Lemma while_in_rooms_total rs draws rid0 :
  (rs !! rid0 = None ∨ ∃ token, token ∈ draws ∧ rs !! generate_room_id token = None) →
  is_Some (while_in_rooms rs rid0 draws).
Proof.
  revert rid0; induction draws as [|token rest IH]; intros rid0 H; simpl.
  - case_bool_decide as Hin; [|by eexists].
    destruct H as [H|(t & Ht & _)]; [|by apply elem_of_nil in Ht].
    rewrite H in Hin. by destruct Hin.
  - case_bool_decide as Hin; [|by eexists].
    apply IH. destruct H as [H|(t & Ht & Hfree)].
    + rewrite H in Hin. by destruct Hin.
    + apply elem_of_cons in Ht as [->|Ht]; [by left|]. right. by exists t.
Qed.

(** ** The monad *)

Lemma bind_Ret_inv {A B} (m : M A) (k : A → M B) s b s' :
  bind m k s = Some (Ret b, s') →
  ∃ a s1, m s = Some (Ret a, s1) ∧ k a s1 = Some (Ret b, s').
Proof.
  unfold bind. destruct (m s) as [[[a|e] s1]|]; try discriminate.
  intros H. by exists a, s1.
Qed.

Lemma bind_Ret {A B} (m : M A) (k : A → M B) s a s1 :
  m s = Some (Ret a, s1) → bind m k s = k a s1.
Proof. unfold bind. by intros ->. Qed.

Lemma heap_lookup_store (h : list Room) l r x :
  h !! l = Some r → <[l := x]> h !! l = Some x.
Proof. intros H. apply list_lookup_insert_eq. by eapply lookup_lt_Some. Qed.

(** Running a handler on a state whose lookups are known. *)
Ltac py_lookup :=
  match goal with
  | H : rooms _ !! _ = _ |- _ => rewrite H
  | H : heap _ !! _ = _ |- _ => rewrite H
  | H : ?h !! ?l = Some _ |- context [(<[?l := ?x]> ?h) !! ?l] =>
      rewrite (heap_lookup_store h l _ x H)
  end.

Ltac py_run :=
  unfold bind, ret, raise, try_except, rooms_get, rooms_set, rooms_del,
    deref, assign, send_json, ws_accept, ws_close, emit, log, store;
  repeat (simpl; py_lookup); simpl.

Lemma or_zero_Some v : or_zero (Some v) = v.
Proof. unfold or_zero. destruct (Z.eqb_spec v 0); congruence. Qed.

(** ** Room *)

Lemma is_full_spec r : is_full r = true ↔ host_ws r ≠ None ∧ guest_ws r ≠ None.
Proof.
  unfold is_full. destruct (host_ws r), (guest_ws r); simpl;
    intuition congruence.
Qed.

Lemma game_seed_set_guest_seed r g :
  game_seed (set_guest_seed (Some g) r) = Some (Z.lxor (host_seed r) g).
Proof. reflexivity. Qed.

(** ** join_room *)

Lemma join_room_not_found req s :
  rooms s !! upper (jrq_room_id req) = None →
  join_room req s = Some (Raise (HTTPException 404 "Room not found"), s).
Proof. intros H. unfold join_room, bind, rooms_get. simpl. by rewrite H. Qed.

Lemma join_room_found req s l r :
  rooms s !! upper (jrq_room_id req) = Some l →
  heap s !! l = Some r →
  join_room req s =
    if is_full r then Some (Raise (HTTPException 400 "Room is full"), s)
    else Some (Ret {| jrs_room_id := room_id r; jrs_player_color := "black";
                      jrs_game_seed := Z.lxor (host_seed r) (jrq_seed req);
                      jrs_max_superpositions := max_superpositions r |},
               store l (set_guest_seed (Some (jrq_seed req)) r) s).
Proof.
  intros Hk Hl. unfold join_room. py_run.
  destruct (is_full r); [done|]. py_run.
  by rewrite game_seed_set_guest_seed, or_zero_Some.
Qed.

(** ** websocket_endpoint: admission *)

Section admission.
Context (net : Net) (ws : WebSocket) (rid : string) (s : Server).

Lemma websocket_endpoint_bind_not_found :
  rooms s !! upper rid = None →
  websocket_endpoint_bind net ws rid s
  = Some (Ret None, log [Close ws 4004 "Room not found"] s).
Proof. intros Hk. unfold websocket_endpoint_bind. by py_run. Qed.

Lemma websocket_endpoint_not_found :
  rooms s !! upper rid = None →
  websocket_endpoint net ws rid s
  = Some (Ret None, log [Close ws 4004 "Room not found"] s).
Proof.
  intros Hk. unfold websocket_endpoint.
  by rewrite (bind_Ret _ _ _ _ _ (websocket_endpoint_bind_not_found Hk)).
Qed.

Context (l : loc) (r : Room).
Hypothesis Hk : rooms s !! upper rid = Some l.
Hypothesis Hl : heap s !! l = Some r.

Lemma websocket_endpoint_bind_host :
  host_ws r = None →
  websocket_endpoint_bind net ws rid s
  = Some (Ret (Some (mkSession ws (upper rid) l "host")),
          log [Accept ws] (store l (set_host_ws (Some ws) r) s)).
Proof. intros Hh. unfold websocket_endpoint_bind. py_run. rewrite Hh. by py_run. Qed.

Lemma websocket_endpoint_bind_guest h :
  host_ws r = Some h → guest_ws r = None →
  websocket_endpoint_bind net ws rid s
  = Some (match net h with
          | None => Ret (Some (mkSession ws (upper rid) l "guest"))
          | Some e => Raise e
          end,
          log [Accept ws; SendJson h (msg_peer_joined (game_seed r))]
              (store l (set_guest_ws (Some ws) r) s)).
Proof.
  intros Hh Hg. unfold websocket_endpoint_bind. py_run. rewrite Hh, Hg. py_run.
  rewrite Hh. simpl. rewrite <- app_assoc. simpl.
  by destruct (net h).
Qed.

Lemma websocket_endpoint_bind_full h g :
  host_ws r = Some h → guest_ws r = Some g →
  websocket_endpoint_bind net ws rid s
  = Some (Ret None, log [Accept ws; Close ws 4001 "Room is full"] s).
Proof.
  intros Hh Hg. unfold websocket_endpoint_bind. py_run. rewrite Hh, Hg. py_run.
  by rewrite <- app_assoc.
Qed.

Lemma websocket_endpoint_full h g :
  host_ws r = Some h → guest_ws r = Some g →
  websocket_endpoint net ws rid s
  = Some (Ret None, log [Accept ws; Close ws 4001 "Room is full"] s).
Proof.
  intros Hh Hg. unfold websocket_endpoint.
  by rewrite (bind_Ret _ _ _ _ _ (websocket_endpoint_bind_full _ _ Hh Hg)).
Qed.

Lemma websocket_endpoint_host :
  host_ws r = None → net ws = None →
  websocket_endpoint net ws rid s
  = Some (Ret (Some (mkSession ws (upper rid) l "host")),
          log [Accept ws; SendJson ws (msg_connected "host" (game_seed r))]
              (store l (set_host_ws (Some ws) r) s)).
Proof.
  intros Hh Hn. unfold websocket_endpoint.
  rewrite (bind_Ret _ _ _ _ _ (websocket_endpoint_bind_host Hh)).
  unfold guarded, send_connected. py_run. rewrite Hn. simpl.
  by rewrite <- app_assoc.
Qed.

Lemma websocket_endpoint_guest h :
  host_ws r = Some h → guest_ws r = None → net h = None → net ws = None →
  websocket_endpoint net ws rid s
  = Some (Ret (Some (mkSession ws (upper rid) l "guest")),
          log [Accept ws; SendJson h (msg_peer_joined (game_seed r));
               SendJson ws (msg_connected "guest" (game_seed r))]
              (store l (set_guest_ws (Some ws) r) s)).
Proof.
  intros Hh Hg Hnh Hn. unfold websocket_endpoint.
  pose proof (websocket_endpoint_bind_guest _ Hh Hg) as Hb. rewrite Hnh in Hb.
  rewrite (bind_Ret _ _ _ _ _ Hb).
  unfold guarded, send_connected. py_run. rewrite Hn. simpl.
  by rewrite <- app_assoc.
Qed.
End admission.

(** ** websocket_endpoint: relay and disconnect *)

Lemma get_other_ws_unbind r ws : get_other_ws (unbind ws r) ws = None.
Proof.
  unfold unbind, get_other_ws.
  destruct (decide (host_ws r = Some ws)) as [Hh|Hh]; simpl.
  - destruct (decide (Some ws = None)); [done|].
    by destruct (decide (Some ws = guest_ws r)).
  - destruct (decide (guest_ws r = Some ws)) as [Hg|Hg]; simpl.
    + destruct (decide (Some ws = host_ws r)); [done|].
      by destruct (decide (Some ws = None)).
    + destruct (decide (Some ws = host_ws r)); [done|].
      by destruct (decide (Some ws = guest_ws r)).
Qed.

Lemma store_same s l r : heap s !! l = Some r → store l r s = s.
Proof.
  intros H. unfold store. destruct s as [rs h t]; simpl in *.
  by rewrite (list_insert_id h l r H).
Qed.

Section session.
Context (net : Net) (sess : Session) (s : Server) (r : Room).
Hypothesis Hl : heap s !! sess_room sess = Some r.

(** The [except] block unbinds the slot, finds no peer to notify and
    deletes the dictionary entry when the room is empty. *)
Lemma on_disconnect_eq :
  on_disconnect net sess s
  = if is_None (host_ws (unbind (websocket sess) r))
       && is_None (guest_ws (unbind (websocket sess) r))
    then rooms_del (sess_room_id sess)
           (store (sess_room sess) (unbind (websocket sess) r) s)
    else Some (Ret tt, store (sess_room sess) (unbind (websocket sess) r) s).
Proof.
  pose proof (get_other_ws_unbind r (websocket sess)) as Hother.
  unfold on_disconnect, unbind in *.
  unfold bind at 1. unfold deref at 1. rewrite Hl.
  destruct (decide (host_ws r = Some (websocket sess))) as [Hh|Hh];
    [|destruct (decide (guest_ws r = Some (websocket sess))) as [Hg|Hg]].
  - py_run. rewrite Hother. py_run. by destruct (guest_ws r).
  - py_run. rewrite Hother. py_run. by destruct (host_ws r).
  - rewrite (store_same _ _ _ Hl). py_run. rewrite Hother. py_run.
    by destruct (host_ws r), (guest_ws r).
Qed.

Lemma on_disconnect_trace res s' :
  on_disconnect net sess s = Some (res, s') → trace s' = trace s.
Proof.
  rewrite on_disconnect_eq.
  destruct (is_None _ && is_None _).
  - unfold rooms_del. destruct (rooms _ !! sess_room_id sess); by intros [= <- <-].
  - by intros [= <- <-].
Qed.

Lemma websocket_disconnect_eq :
  websocket_disconnect net sess s
  = if is_None (host_ws (unbind (websocket sess) r))
       && is_None (guest_ws (unbind (websocket sess) r))
    then match rooms s !! sess_room_id sess with
         | Some _ =>
             Some (Ret None,
                   {| rooms := delete (sess_room_id sess) (rooms s);
                      heap := heap (store (sess_room sess)
                                      (unbind (websocket sess) r) s);
                      trace := trace s |})
         | None =>
             Some (Raise (KeyError (sess_room_id sess)),
                   store (sess_room sess) (unbind (websocket sess) r) s)
         end
    else Some (Ret None, store (sess_room sess) (unbind (websocket sess) r) s).
Proof.
  unfold websocket_disconnect, websocket_receive, guarded, relay.
  unfold try_except, bind at 1. unfold bind at 1, raise at 1.
  unfold bind at 1. rewrite on_disconnect_eq.
  destruct (is_None _ && is_None _); [|done].
  unfold rooms_del, store. simpl.
  by destruct (rooms s !! sess_room_id sess).
Qed.

(** One turn of the relay loop. *)
Lemma relay_eq data :
  relay net sess (Ret data) s
  = match get_other_ws r (websocket sess) with
    | Some other_ws =>
        Some (match net other_ws with
              | None => Ret tt
              | Some e => Raise e
              end,
              log [SendJson other_ws data] s)
    | None => Some (Ret tt, s)
    end.
Proof.
  unfold relay. py_run.
  destruct (get_other_ws r (websocket sess)) as [o|]; [|done].
  py_run. by destruct (net o).
Qed.

Lemma websocket_receive_eq data :
  websocket_receive net sess (Ret data) s
  = match get_other_ws r (websocket sess) with
    | Some other_ws =>
        match net other_ws with
        | None => Some (Ret (Some sess), log [SendJson other_ws data] s)
        | Some WebSocketDisconnect =>
            bind (on_disconnect net sess) (fun _ => ret None)
                 (log [SendJson other_ws data] s)
        | Some e => Some (Raise e, log [SendJson other_ws data] s)
        end
    | None => Some (Ret (Some sess), s)
    end.
Proof.
  unfold websocket_receive, guarded, try_except.
  unfold bind at 1. rewrite relay_eq.
  destruct (get_other_ws r (websocket sess)) as [o|]; [|done].
  destruct (net o) as [[]|]; done.
Qed.
End session.

Lemma rooms_del_absent k s :
  rooms s !! k = None → rooms_del k s = Some (Raise (KeyError k), s).
Proof. intros H. unfold rooms_del. by rewrite H. Qed.

(** ** cleanup_old_rooms *)

Lemma filter_m_expired cutoff s (items : list (string * loc)) :
  (∀ item, item ∈ items → is_Some (heap s !! item.2)) →
  filter_m
    (fun '(rid, room) => r <- deref room ;; ret (bool_decide (created_at r < cutoff)))
    items s
  = Some (Ret (List.filter (expired_at cutoff s) items), s).
Proof.
  induction items as [|[k l] items IH]; intros Halloc; [done|].
  destruct (Halloc (k, l)) as [r Hr]; [left|]. simpl in Hr.
  cbn [filter_m].
  erewrite bind_Ret; [|by unfold bind, deref; rewrite Hr].
  erewrite bind_Ret; [|apply IH; intros item Hin; apply Halloc; by right].
  assert (Hexp : expired_at cutoff s (k, l) = bool_decide (created_at r < cutoff))
    by (unfold expired_at; simpl; by rewrite Hr).
  unfold ret. cbn [List.filter]. by rewrite Hexp.
Qed.

Lemma for_each_rooms_del (ks : list string) s :
  NoDup ks →
  (∀ k, k ∈ ks → is_Some (rooms s !! k)) →
  ∃ s', for_each ks rooms_del s = Some (Ret tt, s')
        ∧ heap s' = heap s ∧ trace s' = trace s
        ∧ ∀ k, rooms s' !! k = if decide (k ∈ ks) then None else rooms s !! k.
Proof.
  revert s; induction ks as [|k0 ks IH]; intros s Hnd Hin.
  - exists s. split; [done|split; [done|split; [done|]]]. intros k.
    destruct (decide (k ∈ [])) as [H|]; [by apply elem_of_nil in H|done].
  - apply NoDup_cons in Hnd as [Hk0 Hnd].
    destruct (Hin k0) as [l0 Hl0]; [left|].
    set (s1 := {| rooms := delete k0 (rooms s); heap := heap s; trace := trace s |}).
    destruct (IH s1 Hnd) as (s' & Hrun & Hheap & Htrace & Hrooms).
    { intros k Hk. simpl. rewrite lookup_delete_ne; [apply Hin; by right|].
      intros ->. contradiction. }
    exists s'. split; [|split; [done|split; [done|]]].
    + simpl. unfold bind, rooms_del at 1. by rewrite Hl0.
    + intros k. rewrite Hrooms. simpl.
      destruct (decide (k ∈ ks)) as [Hk|Hk].
      * rewrite decide_True; [done|by right].
      * destruct (decide (k = k0)) as [->|Hne].
        -- rewrite decide_True; [|left]. apply lookup_delete_eq.
        -- rewrite decide_False; [by apply lookup_delete_ne|].
           intros [->|?]%elem_of_cons; contradiction.
Qed.

Lemma NoDup_fst_filter {A B} (f : A * B → bool) (l : list (A * B)) :
  NoDup l.*1 → NoDup (List.filter f l).*1.
Proof.
  induction l as [|x l IH]; simpl; [done|].
  intros [Hx Hnd]%NoDup_cons. destruct (f x); simpl; [|by apply IH].
  apply NoDup_cons. split; [|by apply IH].
  intros Hin. apply Hx.
  apply list_elem_of_fmap in Hin as (y & -> & Hy).
  apply list_elem_of_fmap. exists y. split; [done|].
  apply list_elem_of_In in Hy. apply filter_In in Hy as [Hy _].
  by apply list_elem_of_In.
Qed.

Lemma cleanup_old_rooms_spec now s :
  allocated s →
  ∃ s', cleanup_old_rooms now s = Some (Ret tt, s')
        ∧ heap s' = heap s ∧ trace s' = trace s
        ∧ ∀ k, rooms s' !! k =
               match rooms s !! k with
               | Some l => if expired_at (now - one_hour) s (k, l) then None else Some l
               | None => None
               end.
Proof.
  intros Halloc. unfold cleanup_old_rooms.
  set (cutoff := now - one_hour).
  set (items := map_to_list (rooms s)).
  set (expired := List.filter (expired_at cutoff s) items).
  assert (Hmem : ∀ k, k ∈ expired.*1 ↔
            ∃ l, rooms s !! k = Some l ∧ expired_at cutoff s (k, l) = true).
  { intros k. unfold expired. rewrite list_elem_of_fmap. split.
    - intros ([k' l] & -> & Hin). exists l.
      apply list_elem_of_In, filter_In in Hin as [Hin Hexp].
      apply list_elem_of_In, elem_of_map_to_list in Hin. by split.
    - intros (l & Hl & Hexp). exists (k, l). split; [done|].
      apply list_elem_of_In, filter_In. split; [|done].
      by apply list_elem_of_In, elem_of_map_to_list. }
  destruct (for_each_rooms_del expired.*1 s) as (s' & Hrun & Hheap & Htrace & Hrooms).
  { apply NoDup_fst_filter, NoDup_fst_map_to_list. }
  { intros k (l & Hl & _)%Hmem. by eexists. }
  exists s'. split; [|split; [done|split; [done|]]].
  - unfold bind at 1. unfold rooms_items at 1. unfold bind at 1.
    rewrite filter_m_expired; [exact Hrun|].
    intros [k l] Hin%elem_of_map_to_list. by eapply Halloc.
  - intros k. rewrite Hrooms.
    destruct (decide (k ∈ expired.*1)) as [Hin|Hnin].
    + apply Hmem in Hin as (l & -> & ->). done.
    + destruct (rooms s !! k) as [l|] eqn:Hl; [|done].
      destruct (expired_at cutoff s (k, l)) eqn:Hexp; [|done].
      exfalso. apply Hnin, Hmem. by exists l.
Qed.

(** Whenever the sweep returns it has only dropped dictionary entries. *)
Lemma for_each_rooms_del_frame ks s res s1 :
  for_each ks rooms_del s = Some (res, s1) →
  heap s1 = heap s ∧ trace s1 = trace s
  ∧ ∀ k l, rooms s1 !! k = Some l → rooms s !! k = Some l.
Proof.
  revert s; induction ks as [|k0 ks IH]; intros s.
  - by intros [= <- <-].
  - cbn [for_each]. unfold bind, rooms_del at 1.
    destruct (rooms s !! k0) as [l0|] eqn:Hk0; [|by intros [= <- <-]].
    intros (Hh & Ht & Hr)%IH. simpl in *. split; [done|]. split; [done|].
    intros k l Hk. apply Hr in Hk.
    by apply lookup_delete_Some in Hk as [_ Hk].
Qed.

Lemma filter_m_deref_frame cutoff (items : list (string * loc)) s res s1 :
  filter_m
    (fun '(rid, room) => r <- deref room ;; ret (bool_decide (created_at r < cutoff)))
    items s = Some (res, s1) →
  s1 = s.
Proof.
  revert res s1; induction items as [|[k l] items IH]; intros res s1;
    [by intros [= <- <-]|].
  cbn [filter_m]. unfold bind at 1. unfold bind at 1, deref at 1.
  destruct (heap s !! l); [|discriminate]. unfold ret at 1, bind at 1.
  destruct (filter_m _ items s) as [[[ys|e] s2]|] eqn:Hf; [| |discriminate].
  - rewrite (IH _ _ eq_refl). by intros [= <- <-].
  - rewrite (IH _ _ eq_refl). by intros [= <- <-].
Qed.

Lemma cleanup_old_rooms_frame now s res s1 :
  cleanup_old_rooms now s = Some (res, s1) →
  heap s1 = heap s ∧ trace s1 = trace s
  ∧ ∀ k l, rooms s1 !! k = Some l → rooms s !! k = Some l.
Proof.
  unfold cleanup_old_rooms, bind at 1, rooms_items at 1. unfold bind at 1.
  destruct (filter_m _ (map_to_list (rooms s)) s) as [[[ys|e] s2]|] eqn:Hf;
    [| |discriminate].
  - apply filter_m_deref_frame in Hf as ->. apply for_each_rooms_del_frame.
  - apply filter_m_deref_frame in Hf as ->. by intros [= <- <-].
Qed.

Lemma filter_m_deref_allocated cutoff (items : list (string * loc)) s res s1 :
  filter_m
    (fun '(rid, room) => r <- deref room ;; ret (bool_decide (created_at r < cutoff)))
    items s = Some (res, s1) →
  ∀ item, item ∈ items → is_Some (heap s !! item.2).
Proof.
  revert res s1; induction items as [|[k l] items IH]; intros res s1 H item Hin;
    [by apply elem_of_nil in Hin|].
  revert H. cbn [filter_m]. unfold bind at 1. unfold bind at 1, deref at 1.
  destruct (heap s !! l) as [r|] eqn:Hl; [|discriminate].
  unfold ret at 1, bind at 1.
  destruct (filter_m _ items s) as [[res' s2]|] eqn:Hf; [|discriminate].
  intros _. apply elem_of_cons in Hin as [->|Hin]; [by eexists|].
  by eapply IH.
Qed.

Lemma cleanup_old_rooms_allocated now s res s1 :
  cleanup_old_rooms now s = Some (res, s1) → allocated s.
Proof.
  unfold cleanup_old_rooms, bind at 1, rooms_items at 1. unfold bind at 1.
  destruct (filter_m _ (map_to_list (rooms s)) s) as [[res' s2]|] eqn:Hf;
    [|discriminate].
  intros _ k l Hk.
  apply (filter_m_deref_allocated _ _ _ _ _ Hf (k, l)).
  by apply elem_of_map_to_list.
Qed.

(** ** create_room *)

(** What a returning [create_room] has done: swept, drawn an identifier
    that is free after the sweep, allocated and registered the room. *)
Lemma create_room_inv now_sweep now_init draws req s resp s' :
  create_room now_sweep now_init draws req s = Some (Ret resp, s') →
  ∃ s1 rid,
    cleanup_old_rooms now_sweep s = Some (Ret tt, s1)
    ∧ rooms s1 !! rid = None
    ∧ (∃ token, token ∈ draws ∧ rid = generate_room_id token)
    ∧ resp = {| crs_room_id := rid; crs_player_color := "white";
                crs_max_superpositions := clamp (maxSuperpositions req) |}
    ∧ s' = {| rooms := <[rid := List.length (heap s1)]> (rooms s1);
              heap := heap s1 ++ [Room_init rid (crq_seed req)
                                    (clamp (maxSuperpositions req)) now_init];
              trace := trace s1 |}.
Proof.
  unfold create_room. intros H.
  apply bind_Ret_inv in H as ([] & s1 & Hsweep & H).
  apply bind_Ret_inv in H as (rid & s2 & Hfresh & H).
  unfold fresh_room_id in Hfresh.
  destruct draws as [|token rest]; [discriminate|].
  destruct (while_in_rooms (rooms s1) (generate_room_id token) rest) as [rid'|] eqn:Hloop;
    [|discriminate].
  injection Hfresh as -> <-.
  apply while_in_rooms_spec in Hloop as [Hfree Hfrom].
  exists s1, rid. split; [done|]. split; [done|]. split.
  - destruct Hfrom as [->|(t & Ht & ->)].
    + exists token. split; [left|done].
    + exists t. split; [by right|done].
  - revert H. py_run. by intros [= <- <-].
Qed.

Lemma create_room_returns now_sweep now_init draws req s :
  allocated s →
  (∃ token, token ∈ draws ∧ rooms s !! generate_room_id token = None) →
  ∃ resp s', create_room now_sweep now_init draws req s = Some (Ret resp, s').
Proof.
  intros Halloc (token & Hin & Hfree).
  destruct (cleanup_old_rooms_spec now_sweep s Halloc) as (s1 & Hsweep & _ & _ & Hrooms).
  assert (Hfree1 : rooms s1 !! generate_room_id token = None)
    by (by rewrite Hrooms, Hfree).
  unfold create_room. rewrite (bind_Ret _ _ _ _ _ Hsweep).
  destruct draws as [|token0 rest]; [by apply elem_of_nil in Hin|].
  destruct (while_in_rooms_total (rooms s1) rest (generate_room_id token0)) as [rid Hrid].
  { apply elem_of_cons in Hin as [->|Hin]; [by left|]. right. by exists token. }
  unfold bind at 1, fresh_room_id at 1. rewrite Hrid.
  py_run. by eexists _, _.
Qed.

Lemma lookup_new_room (h : list Room) r :
  (h ++ [r])%list !! List.length h = Some r.
Proof. rewrite lookup_app_r by lia. by rewrite Nat.sub_diag. Qed.

(** The room a returning [create_room] leaves behind. *)
Lemma create_room_registers now_sweep now_init draws req s resp s' :
  create_room now_sweep now_init draws req s = Some (Ret resp, s') →
  (∃ token, token ∈ draws ∧ crs_room_id resp = generate_room_id token)
  ∧ crs_max_superpositions resp = clamp (maxSuperpositions req)
  ∧ rooms s' !! crs_room_id resp = Some (List.length (heap s))
  ∧ heap s' !! List.length (heap s)
    = Some (Room_init (crs_room_id resp) (crq_seed req)
              (crs_max_superpositions resp) now_init).
Proof.
  intros H.
  destruct (create_room_inv _ _ _ _ _ _ _ H)
    as (s1 & rid & Hsweep & Hfree & Htoken & -> & ->).
  destruct (cleanup_old_rooms_frame _ _ _ _ Hsweep) as (Hheap & _ & _).
  cbn [crs_room_id crs_max_superpositions rooms heap]. rewrite <- Hheap.
  split; [done|]. split; [done|]. split.
  - apply lookup_insert_eq.
  - apply lookup_new_room.
Qed.

(** ** The dictionary stays consistent *)

Section preserves.
Context (I : Server → Prop).

Lemma preserves_ret {A} (a : A) : preserves I (ret a).
Proof. by intros s res s' HI [= <- <-]. Qed.

Lemma preserves_raise {A} e : preserves I (@raise A e).
Proof. by intros s res s' HI [= <- <-]. Qed.

Lemma preserves_bind {A B} (m : M A) (k : A → M B) :
  preserves I m → (∀ a, preserves I (k a)) → preserves I (bind m k).
Proof.
  intros Hm Hk s res s' HI. unfold bind.
  destruct (m s) as [[[a|e] s1]|] eqn:Hms; [| |discriminate].
  - apply (Hk a). by eapply Hm.
  - intros [= <- <-]. by eapply Hm.
Qed.

Lemma preserves_try_except {A} (body : M A) handler :
  preserves I body →
  (∀ e h, handler e = Some h → preserves I h) →
  preserves I (try_except body handler).
Proof.
  intros Hb Hh s res s' HI. unfold try_except.
  destruct (body s) as [[[a|e] s1]|] eqn:Hbs; [| |discriminate].
  - intros [= <- <-]. by eapply Hb.
  - destruct (handler e) as [h|] eqn:He.
    + apply (Hh _ _ He). by eapply Hb.
    + intros [= <- <-]. by eapply Hb.
Qed.

Lemma preserves_for_each {A} (l : list A) body :
  (∀ x, preserves I (body x)) → preserves I (for_each l body).
Proof.
  intros Hb. induction l as [|x l IH]; [apply preserves_ret|].
  cbn [for_each]. apply preserves_bind; [apply Hb|by intros _].
Qed.

Lemma preserves_filter_m {A} (l : list A) p :
  (∀ x, preserves I (p x)) → preserves I (filter_m p l).
Proof.
  intros Hp. induction l as [|x l IH]; [apply preserves_ret|].
  cbn [filter_m]. apply preserves_bind; [apply Hp|intros b].
  apply preserves_bind; [apply IH|intros ys]. apply preserves_ret.
Qed.
End preserves.

Lemma consistent_allocated s : consistent s → allocated s.
Proof. intros H k l Hk. destruct (H k l Hk) as (r & -> & _). by eexists. Qed.

Lemma consistent_empty : consistent empty_server.
Proof. intros k l Hk. cbn [rooms empty_server] in Hk. by rewrite lookup_empty in Hk. Qed.

Lemma preserves_rooms_get k : preserves consistent (rooms_get k).
Proof. by intros s res s' HI [= <- <-]. Qed.

Lemma preserves_rooms_items : preserves consistent rooms_items.
Proof. by intros s res s' HI [= <- <-]. Qed.

Lemma preserves_deref l : preserves consistent (deref l).
Proof.
  intros s res s' HI. unfold deref.
  destruct (heap s !! l); [by intros [= <- <-]|discriminate].
Qed.

Lemma preserves_emit e : preserves consistent (emit e).
Proof. by intros s res s' HI [= <- <-]. Qed.

Lemma preserves_rooms_del k : preserves consistent (rooms_del k).
Proof.
  intros s res s' HI. unfold rooms_del.
  destruct (rooms s !! k); intros [= <- <-]; [|done].
  intros k' l' Hk'. cbn [rooms heap] in *.
  apply lookup_delete_Some in Hk' as [_ Hk']. by apply HI.
Qed.

Lemma preserves_assign l f :
  (∀ r, room_id (f r) = room_id r) → preserves consistent (assign l f).
Proof.
  intros Hf s res s' HI. unfold assign.
  destruct (heap s !! l) as [r|] eqn:Hl; [|discriminate].
  intros [= <- <-] k l' Hk. destruct (HI k l' Hk) as (r' & Hr' & Hid).
  cbn [heap]. destruct (decide (l = l')) as [<-|Hne].
  - exists (f r). split; [apply (heap_lookup_store _ _ _ _ Hl)|].
    rewrite Hf. congruence.
  - exists r'. by rewrite list_lookup_insert_ne.
Qed.

Lemma preserves_send_json net ws data : preserves consistent (send_json net ws data).
Proof.
  unfold send_json. apply preserves_bind; [apply preserves_emit|intros _].
  destruct (net ws); [apply preserves_raise|apply preserves_ret].
Qed.

Create HintDb preserves.
#[local] Hint Resolve preserves_ret preserves_raise preserves_rooms_get
  preserves_rooms_items preserves_deref preserves_emit preserves_rooms_del
  preserves_send_json : preserves.

Ltac preserve :=
  repeat first
    [ apply preserves_bind; [|intros ?]
    | apply preserves_try_except; [|intros ? ? ?]
    | apply preserves_for_each; intros ?
    | apply preserves_filter_m; intros [? ?]
    | by apply preserves_assign
    | solve [auto with preserves]
    | match goal with
      | |- preserves _ (match ?x with _ => _ end) => destruct x
      | H : match ?e with _ => _ end = Some _ |- _ => destruct e; try discriminate
      | H : Some _ = Some _ |- _ => injection H as <-
      end ].

Lemma cleanup_old_rooms_consistent now : preserves consistent (cleanup_old_rooms now).
Proof. unfold cleanup_old_rooms. preserve. Qed.

Lemma join_room_consistent req : preserves consistent (join_room req).
Proof. unfold join_room. preserve. Qed.

Lemma on_disconnect_consistent net sess : preserves consistent (on_disconnect net sess).
Proof. unfold on_disconnect. preserve. Qed.

Lemma websocket_endpoint_consistent net ws rid :
  preserves consistent (websocket_endpoint net ws rid).
Proof.
  pose proof on_disconnect_consistent.
  unfold websocket_endpoint, websocket_endpoint_bind, guarded, send_connected,
    ws_accept, ws_close.
  preserve.
Qed.

Lemma websocket_receive_consistent net sess inbound :
  preserves consistent (websocket_receive net sess inbound).
Proof.
  pose proof on_disconnect_consistent.
  unfold websocket_receive, guarded, relay. preserve.
Qed.

Lemma create_room_consistent now_sweep now_init draws req :
  preserves consistent (create_room now_sweep now_init draws req).
Proof.
  unfold create_room.
  apply preserves_bind; [apply cleanup_old_rooms_consistent|intros _].
  intros s res s' HI. unfold bind at 1, fresh_room_id.
  destruct draws as [|token rest]; [discriminate|].
  destruct (while_in_rooms _ _ _) as [rid|]; [|discriminate].
  py_run. intros [= <- <-] k l. cbn [rooms heap].
  destruct (decide (rid = k)) as [<-|Hne].
  - rewrite lookup_insert_eq. intros [= <-]. eexists. by rewrite lookup_new_room.
  - rewrite lookup_insert_ne by done. intros Hk.
    destruct (HI k l Hk) as (r & Hr & Hid). exists r. split; [|done].
    by apply lookup_app_l_Some.
Qed.

(** ** Distinct connections in the two slots *)

Lemma distinct_slots_init rid seed max_sup now :
  distinct_slots (Room_init rid seed max_sup now).
Proof. by intros w. Qed.

Lemma distinct_slots_bind_host r ws :
  guest_ws r ≠ Some ws → distinct_slots (set_host_ws (Some ws) r).
Proof. intros Hg w. simpl. by intros [= <-]. Qed.

Lemma distinct_slots_bind_guest r ws :
  host_ws r ≠ Some ws → distinct_slots (set_guest_ws (Some ws) r).
Proof. intros Hh w. simpl. intros Hw [= <-]. contradiction. Qed.

Lemma distinct_slots_unbind r ws :
  distinct_slots r → distinct_slots (unbind ws r).
Proof.
  intros Hd w. unfold unbind.
  destruct (decide (host_ws r = Some ws)); [done|].
  destruct (decide (guest_ws r = Some ws)); [by simpl|apply Hd].
Qed.

(** ** The sample run *)

Lemma sample_created :
  create_room 0 0 [Sample.token] Sample.request empty_server
  = Some (Ret {| crs_room_id := Sample.rid; crs_player_color := "white";
                 crs_max_superpositions := 2 |}, Sample.created).
Proof. vm_compute. reflexivity. Qed.

Lemma sample_swept :
  create_room (2 * one_hour) (2 * one_hour) ["Zz9-_aBc"] Sample.request
    Sample.host_unjoined
  = Some (Ret {| crs_room_id := "ZZ9-_ABC"; crs_player_color := "white";
                 crs_max_superpositions := 2 |}, Sample.swept).
Proof. vm_compute. reflexivity. Qed.

Lemma sample_paired_room :
  heap Sample.paired !! 0%nat
  = Some {| room_id := Sample.rid; host_seed := 42; max_superpositions := 2;
            guest_seed := Some 17; host_ws := Some 1%nat; guest_ws := Some 2%nat;
            created_at := 0 |}.
Proof. reflexivity. Qed.

Lemma sample_paired_trace :
  trace Sample.paired
  = [Accept 1%nat; SendJson 1%nat (msg_connected "host" (Some 59));
     Accept 2%nat; SendJson 1%nat (msg_peer_joined (Some 59));
     SendJson 2%nat (msg_connected "guest" (Some 59))].
Proof. reflexivity. Qed.

Lemma sample_teardown :
  result (websocket_disconnect reliable Sample.guest_session) Sample.paired
  = Some (Ret None)
  ∧ rooms (exec (websocket_disconnect reliable Sample.guest_session) Sample.paired)
      !! Sample.rid = Some 0%nat
  ∧ result (websocket_disconnect reliable Sample.host_session)
      (exec (websocket_disconnect reliable Sample.guest_session) Sample.paired)
    = Some (Ret None)
  ∧ rooms (exec (websocket_disconnect reliable Sample.host_session)
             (exec (websocket_disconnect reliable Sample.guest_session) Sample.paired))
    = ∅.
Proof. repeat split; vm_compute; reflexivity. Qed.

(** ** The lookups past [str.upper()] *)

Lemma upper_is_ascii s : is_ascii s = true → is_ascii (upper s) = true.
Proof.
  unfold is_ascii. induction s as [|c s IH]; simpl; [done|].
  intros [Hc Hs]%andb_true_iff. rewrite IH by done. rewrite andb_true_r.
  revert Hc. destruct c as [[] [] [] [] [] [] [] []]; vm_compute; done.
Qed.

(** With [upper] for [str.upper()] the two pairs of definitions are the
    same. *)
Lemma join_room_at_upper req :
  join_room req = join_room_at (upper (jrq_room_id req)) (jrq_seed req).
Proof. reflexivity. Qed.

Lemma websocket_endpoint_bind_at_upper net ws rid :
  websocket_endpoint_bind net ws rid = websocket_endpoint_bind_at net ws (upper rid).
Proof. reflexivity. Qed.

Lemma websocket_endpoint_at_upper net ws rid :
  websocket_endpoint net ws rid = websocket_endpoint_at net ws (upper rid).
Proof. reflexivity. Qed.

Lemma join_room_at_not_found rid seed s :
  rooms s !! rid = None →
  join_room_at rid seed s = Some (Raise (HTTPException 404 "Room not found"), s).
Proof. intros H. unfold join_room_at, bind, rooms_get. simpl. by rewrite H. Qed.

Lemma join_room_at_found rid seed s l r :
  rooms s !! rid = Some l →
  heap s !! l = Some r →
  join_room_at rid seed s =
    if is_full r then Some (Raise (HTTPException 400 "Room is full"), s)
    else Some (Ret {| jrs_room_id := room_id r; jrs_player_color := "black";
                      jrs_game_seed := Z.lxor (host_seed r) seed;
                      jrs_max_superpositions := max_superpositions r |},
               store l (set_guest_seed (Some seed) r) s).
Proof.
  intros Hk Hl. unfold join_room_at. py_run.
  destruct (is_full r); [done|]. py_run.
  by rewrite game_seed_set_guest_seed, or_zero_Some.
Qed.

Section admission_at.
Context (net : Net) (ws : WebSocket) (rid : string) (s : Server).

Lemma websocket_endpoint_bind_at_not_found :
  rooms s !! rid = None →
  websocket_endpoint_bind_at net ws rid s
  = Some (Ret None, log [Close ws 4004 "Room not found"] s).
Proof. intros Hk. unfold websocket_endpoint_bind_at. by py_run. Qed.

Lemma websocket_endpoint_at_not_found :
  rooms s !! rid = None →
  websocket_endpoint_at net ws rid s
  = Some (Ret None, log [Close ws 4004 "Room not found"] s).
Proof.
  intros Hk. unfold websocket_endpoint_at.
  by rewrite (bind_Ret _ _ _ _ _ (websocket_endpoint_bind_at_not_found Hk)).
Qed.

Context (l : loc) (r : Room).
Hypothesis Hk : rooms s !! rid = Some l.
Hypothesis Hl : heap s !! l = Some r.

Lemma websocket_endpoint_bind_at_host :
  host_ws r = None →
  websocket_endpoint_bind_at net ws rid s
  = Some (Ret (Some (mkSession ws rid l "host")),
          log [Accept ws] (store l (set_host_ws (Some ws) r) s)).
Proof. intros Hh. unfold websocket_endpoint_bind_at. py_run. rewrite Hh. by py_run. Qed.

Lemma websocket_endpoint_bind_at_guest h :
  host_ws r = Some h → guest_ws r = None →
  websocket_endpoint_bind_at net ws rid s
  = Some (match net h with
          | None => Ret (Some (mkSession ws rid l "guest"))
          | Some e => Raise e
          end,
          log [Accept ws; SendJson h (msg_peer_joined (game_seed r))]
              (store l (set_guest_ws (Some ws) r) s)).
Proof.
  intros Hh Hg. unfold websocket_endpoint_bind_at. py_run. rewrite Hh, Hg. py_run.
  rewrite Hh. simpl. rewrite <- app_assoc. simpl.
  by destruct (net h).
Qed.

Lemma websocket_endpoint_bind_at_full h g :
  host_ws r = Some h → guest_ws r = Some g →
  websocket_endpoint_bind_at net ws rid s
  = Some (Ret None, log [Accept ws; Close ws 4001 "Room is full"] s).
Proof.
  intros Hh Hg. unfold websocket_endpoint_bind_at. py_run. rewrite Hh, Hg. py_run.
  by rewrite <- app_assoc.
Qed.

Lemma websocket_endpoint_at_full h g :
  host_ws r = Some h → guest_ws r = Some g →
  websocket_endpoint_at net ws rid s
  = Some (Ret None, log [Accept ws; Close ws 4001 "Room is full"] s).
Proof.
  intros Hh Hg. unfold websocket_endpoint_at.
  by rewrite (bind_Ret _ _ _ _ _ (websocket_endpoint_bind_at_full _ _ Hh Hg)).
Qed.

Lemma websocket_endpoint_at_host :
  host_ws r = None → net ws = None →
  websocket_endpoint_at net ws rid s
  = Some (Ret (Some (mkSession ws rid l "host")),
          log [Accept ws; SendJson ws (msg_connected "host" (game_seed r))]
              (store l (set_host_ws (Some ws) r) s)).
Proof.
  intros Hh Hn. unfold websocket_endpoint_at.
  rewrite (bind_Ret _ _ _ _ _ (websocket_endpoint_bind_at_host Hh)).
  unfold guarded, send_connected. py_run. rewrite Hn. simpl.
  by rewrite <- app_assoc.
Qed.

Lemma websocket_endpoint_at_guest h :
  host_ws r = Some h → guest_ws r = None → net h = None → net ws = None →
  websocket_endpoint_at net ws rid s
  = Some (Ret (Some (mkSession ws rid l "guest")),
          log [Accept ws; SendJson h (msg_peer_joined (game_seed r));
               SendJson ws (msg_connected "guest" (game_seed r))]
              (store l (set_guest_ws (Some ws) r) s)).
Proof.
  intros Hh Hg Hnh Hn. unfold websocket_endpoint_at.
  pose proof (websocket_endpoint_bind_at_guest _ Hh Hg) as Hb. rewrite Hnh in Hb.
  rewrite (bind_Ret _ _ _ _ _ Hb).
  unfold guarded, send_connected. py_run. rewrite Hn. simpl.
  by rewrite <- app_assoc.
Qed.
End admission_at.

(** * The claims *)

(** ** C1 *)

(** C1, as the code has it: [join_room] answers "Room is full" exactly
    when both connection slots of the room are bound, whatever guest
    seed is recorded.  Otherwise it records the guest seed and returns
    the XOR of the seeds and the branch limit, and a further
    [join_room] on the same room is accepted again and replaces the
    recorded seed.  Right after [create_room] no slot is bound, so the
    first [join_room] with the returned identifier succeeds. *)
Theorem join_room_full_iff_both_bound req s l r :
  rooms s !! upper (jrq_room_id req) = Some l →
  heap s !! l = Some r →
  (join_room req s = Some (Raise (HTTPException 400 "Room is full"), s)
     ↔ host_ws r ≠ None ∧ guest_ws r ≠ None)
  ∧ (host_ws r = None ∨ guest_ws r = None →
     let s1 := store l (set_guest_seed (Some (jrq_seed req)) r) s in
     join_room req s
     = Some (Ret {| jrs_room_id := room_id r; jrs_player_color := "black";
                    jrs_game_seed := Z.lxor (host_seed r) (jrq_seed req);
                    jrs_max_superpositions := max_superpositions r |}, s1)
     ∧ ∀ seed2,
         join_room (mkJoinRoomRequest (jrq_room_id req) seed2) s1
         = Some (Ret {| jrs_room_id := room_id r; jrs_player_color := "black";
                        jrs_game_seed := Z.lxor (host_seed r) seed2;
                        jrs_max_superpositions := max_superpositions r |},
                 store l (set_guest_seed (Some seed2) r) s))
  ∧ (∀ now_sweep now_init draws creq s0 resp,
       create_room now_sweep now_init draws creq s0 = Some (Ret resp, s) →
       jrq_room_id req = crs_room_id resp →
       join_room req s
       = Some (Ret {| jrs_room_id := crs_room_id resp; jrs_player_color := "black";
                      jrs_game_seed := Z.lxor (crq_seed creq) (jrq_seed req);
                      jrs_max_superpositions := crs_max_superpositions resp |},
               store l (set_guest_seed (Some (jrq_seed req)) r) s)).
Proof.
  intros Hk Hl. rewrite !(join_room_found _ _ _ _ Hk Hl).
  pose proof (is_full_spec r) as Hfull.
  split; [|split].
  - destruct (is_full r).
    + split; [intros _; by apply Hfull|done].
    + split; [discriminate|]. intros H%Hfull. discriminate.
  - intros Hfree. assert (is_full r = false) as Hnf.
    { destruct (is_full r); [|done]. destruct Hfull as [[Hh Hg] _]; [done|].
      destruct Hfree; contradiction. }
    rewrite Hnf. split; [done|]. intros seed2.
    erewrite join_room_found;
      [|exact Hk|apply (heap_lookup_store _ _ _ _ Hl)].
    change (is_full (set_guest_seed (Some (jrq_seed req)) r)) with (is_full r).
    rewrite Hnf. unfold store. simpl. by rewrite list_insert_insert_eq.
  - intros now_sweep now_init draws creq s0 resp Hcreate Hid.
    destruct (create_room_registers _ _ _ _ _ _ _ Hcreate)
      as ((token & _ & Hrid) & _ & Hk' & Hl').
    assert (rooms s !! upper (jrq_room_id req) = Some (List.length (heap s0))) as Hk''
      by (by rewrite Hid, Hrid, generate_room_id_upper, <- Hrid).
    rewrite Hk in Hk''. injection Hk'' as ->.
    rewrite Hl in Hl'. by injection Hl' as ->.
Qed.

(** Counterexample to C1 as stated: the sample room has the guest seed
    17 recorded, yet a second [join_room] is answered normally and
    replaces the seed. *)
Lemma second_join_room_accepted :
  rooms Sample.joined !! upper Sample.rid = Some 0%nat
  ∧ (guest_seed <$> heap Sample.joined !! 0%nat) = Some (Some 17)
  ∧ result (join_room (mkJoinRoomRequest Sample.rid 99)) Sample.joined
    = Some (Ret {| jrs_room_id := Sample.rid; jrs_player_color := "black";
                   jrs_game_seed := 73; jrs_max_superpositions := 2 |})
  ∧ result (join_room (mkJoinRoomRequest Sample.rid 99)) Sample.joined
    ≠ Some (Raise (HTTPException 400 "Room is full"))
  ∧ (guest_seed <$>
       heap (exec (join_room (mkJoinRoomRequest Sample.rid 99)) Sample.joined) !! 0%nat)
    = Some (Some 99).
Proof. repeat split; try (vm_compute; reflexivity). vm_compute. discriminate. Qed.

(** Witness of C1 on the sample run. *)
Lemma join_room_full_iff_both_bound_witness :
  rooms Sample.created !! upper "q7zk-mp_" = Some 0%nat
  ∧ heap Sample.created !! 0%nat = Some (Room_init Sample.rid 42 2 0)
  ∧ join_room (mkJoinRoomRequest "q7zk-mp_" 17) Sample.created
    = Some (Ret {| jrs_room_id := Sample.rid; jrs_player_color := "black";
                   jrs_game_seed := 59; jrs_max_superpositions := 2 |},
            store 0%nat (set_guest_seed (Some 17) (Room_init Sample.rid 42 2 0))
                  Sample.created).
Proof.
  assert (Hk : rooms Sample.created !! upper "q7zk-mp_" = Some 0%nat)
    by (vm_compute; reflexivity).
  assert (Hl : heap Sample.created !! 0%nat = Some (Room_init Sample.rid 42 2 0))
    by reflexivity.
  split; [exact Hk|]. split; [exact Hl|].
  destruct (join_room_full_iff_both_bound (mkJoinRoomRequest "q7zk-mp_" 17)
              Sample.created 0%nat _ Hk Hl) as (_ & H & _).
  apply H. by left.
Defined.

(** ** C2 *)

(** C2 (defect in the disconnect path): the [except] block clears the
    slot of the closing connection first and looks the peer up
    afterwards, so [get_other_ws] no longer recognises the closing
    socket and returns [None].  Nothing at all is sent, although the
    connection in the other slot stays bound. *)
Theorem disconnect_never_notifies_peer net sess s r :
  heap s !! sess_room sess = Some r →
  ∃ res s',
    websocket_disconnect net sess s = Some (res, s')
    ∧ trace s' = trace s
    ∧ heap s' !! sess_room sess = Some (unbind (websocket sess) r)
    ∧ get_other_ws (unbind (websocket sess) r) (websocket sess) = None
    ∧ (∀ h, host_ws r = Some h → h ≠ websocket sess →
            host_ws (unbind (websocket sess) r) = Some h)
    ∧ (∀ g, guest_ws r = Some g → g ≠ websocket sess →
            guest_ws (unbind (websocket sess) r) = Some g).
Proof.
  intros Hl. rewrite (websocket_disconnect_eq net sess s r Hl).
  set (ws := websocket sess). set (r' := unbind ws r).
  assert (Hl' : heap (store (sess_room sess) r' s) !! sess_room sess = Some r')
    by apply (heap_lookup_store _ _ _ _ Hl).
  assert (∃ res s', (if is_None (host_ws r') && is_None (guest_ws r')
            then match rooms s !! sess_room_id sess with
                 | Some _ =>
                     Some (Ret None,
                           {| rooms := delete (sess_room_id sess) (rooms s);
                              heap := heap (store (sess_room sess) r' s);
                              trace := trace s |})
                 | None => Some (Raise (KeyError (sess_room_id sess)),
                                 store (sess_room sess) r' s)
                 end
            else Some (Ret None, store (sess_room sess) r' s)) = Some (res, s')
          ∧ trace s' = trace s ∧ heap s' !! sess_room sess = Some r')
    as (res & s' & -> & Ht & Hh).
  { destruct (is_None (host_ws r') && is_None (guest_ws r'));
      [destruct (rooms s !! sess_room_id sess)|]; by eexists _, _. }
  exists res, s'. split; [done|]. split; [done|]. split; [done|].
  split; [apply get_other_ws_unbind|].
  subst r'. unfold unbind. split.
  - intros h Hh' Hne. rewrite decide_False by congruence.
    by destruct (decide (guest_ws r = Some ws)).
  - intros g Hg Hne. destruct (decide (host_ws r = Some ws)); [done|].
    by rewrite decide_False by congruence.
Qed.

(** Witness of C2: the guest of the sample run disconnects; the host
    stays bound and the trace does not grow. *)
Lemma disconnect_never_notifies_peer_witness :
  ∃ res s',
    websocket_disconnect reliable Sample.guest_session Sample.paired = Some (res, s')
    ∧ trace s' = trace Sample.paired
    ∧ (host_ws <$> heap s' !! 0%nat) = Some (Some 1%nat).
Proof.
  destruct (disconnect_never_notifies_peer reliable Sample.guest_session Sample.paired _
              sample_paired_room) as (res & s' & Hrun & Htrace & Hheap & _).
  exists res, s'. split; [exact Hrun|]. split; [exact Htrace|].
  cbn [sess_room Sample.guest_session] in Hheap. rewrite Hheap. reflexivity.
Defined.

(** ** C3 *)

(** C3, as the code has it: expiry happens only in the sweep at the
    start of [create_room].  After a [create_room] whose sweep read the
    clock more than one hour after a room's creation, that room is
    gone from the dictionary whatever its slots hold: no identifier
    leads to it, and unless the new room drew the same identifier,
    [join_room] answers "Room not found" and a new connection is closed
    with 4004. *)
Theorem create_room_sweeps_expired now_sweep now_init draws req s resp s' k l r :
  create_room now_sweep now_init draws req s = Some (Ret resp, s') →
  rooms s !! k = Some l →
  heap s !! l = Some r →
  created_at r < now_sweep - one_hour →
  (∀ k', rooms s' !! k' ≠ Some l)
  ∧ (k ≠ crs_room_id resp →
     rooms s' !! k = None
     ∧ (∀ jreq, upper (jrq_room_id jreq) = k →
          join_room jreq s' = Some (Raise (HTTPException 404 "Room not found"), s'))
     ∧ (∀ net ws rid, upper rid = k →
          websocket_endpoint net ws rid s'
          = Some (Ret None, log [Close ws 4004 "Room not found"] s'))).
Proof.
  intros Hcreate Hk Hl Hold.
  destruct (create_room_inv _ _ _ _ _ _ _ Hcreate)
    as (s1 & rid & Hsweep & Hfree & _ & -> & ->).
  pose proof (cleanup_old_rooms_allocated _ _ _ _ Hsweep) as Halloc.
  destruct (cleanup_old_rooms_spec now_sweep s Halloc)
    as (s1' & Hsweep' & Hheap & _ & Hrooms).
  rewrite Hsweep in Hsweep'. injection Hsweep' as <-.
  assert (Hexp : ∀ k', expired_at (now_sweep - one_hour) s (k', l) = true).
  { intros k'. unfold expired_at. simpl. rewrite Hl. by apply bool_decide_eq_true. }
  assert (Hgone : ∀ k', rooms s1 !! k' ≠ Some l).
  { intros k'. rewrite Hrooms. destruct (rooms s !! k') as [l'|]; [|done].
    destruct (expired_at _ s (k', l')) eqn:He; [done|].
    intros [= ->]. by rewrite Hexp in He. }
  cbn [rooms crs_room_id]. split.
  - intros k'. destruct (decide (rid = k')) as [<-|Hne].
    + rewrite lookup_insert_eq, Hheap. intros [= <-].
      apply lookup_lt_Some in Hl. lia.
    + rewrite lookup_insert_ne by done. apply Hgone.
  - intros Hne.
    assert (Hnone : <[rid := List.length (heap s1)]> (rooms s1) !! k = None).
    { rewrite lookup_insert_ne by done. by rewrite Hrooms, Hk, Hexp. }
    split; [done|]. split.
    + intros jreq Hreq. apply join_room_not_found. cbn [rooms]. by rewrite Hreq.
    + intros net ws rid' Hrid. apply websocket_endpoint_not_found. cbn [rooms].
      by rewrite Hrid.
Qed.

(** Counterexample to C3 as stated: two hours after the sample room was
    created, with no [create_room] in between, [join_room] and a new
    connection still find it. *)
Lemma expired_room_still_found :
  (created_at <$> heap Sample.created !! 0%nat) = Some 0
  ∧ 0 < 2 * one_hour - one_hour
  ∧ result (join_room (mkJoinRoomRequest Sample.rid 17)) Sample.created
    = Some (Ret {| jrs_room_id := Sample.rid; jrs_player_color := "black";
                   jrs_game_seed := 59; jrs_max_superpositions := 2 |})
  ∧ result (websocket_endpoint reliable 1%nat Sample.rid) Sample.created
    = Some (Ret (Some Sample.host_session)).
Proof. repeat split; vm_compute; reflexivity. Qed.

(** Witness of C3: the later [create_room] of the sample run drops the
    first room although its host is connected. *)
Lemma create_room_sweeps_expired_witness :
  rooms Sample.host_unjoined !! Sample.rid = Some 0%nat
  ∧ 0 < 2 * one_hour - one_hour
  ∧ rooms Sample.swept !! Sample.rid = None
  ∧ ∀ k', rooms Sample.swept !! k' ≠ Some 0%nat.
Proof.
  assert (Hk : rooms Sample.host_unjoined !! Sample.rid = Some 0%nat)
    by (vm_compute; reflexivity).
  assert (Hl : heap Sample.host_unjoined !! 0%nat
               = Some (set_host_ws (Some 1%nat) (Room_init Sample.rid 42 2 0)))
    by reflexivity.
  assert (Hold : 0 < 2 * one_hour - one_hour) by (vm_compute; reflexivity).
  split; [exact Hk|]. split; [exact Hold|].
  destruct (create_room_sweeps_expired _ _ _ _ _ _ _ _ _ _ sample_swept Hk Hl Hold)
    as (Hgone & Hnone).
  split; [|exact Hgone].
  apply Hnone. vm_compute. discriminate.
Defined.

(** ** C4 *)

(** C4 (defect in the disconnect path): the dictionary entry is removed
    with [del rooms[room_id]], which raises [KeyError] when the key is
    gone.  In the sample run the sweep of a later [create_room] drops a
    room whose host is still connected; when that host disconnects the
    handler ends with an uncaught [KeyError]. *)
Theorem disconnect_after_sweep_raises_KeyError :
  (∀ k s, rooms s !! k = None → rooms_del k s = Some (Raise (KeyError k), s))
  ∧ rooms Sample.host_unjoined !! Sample.rid = Some 0%nat
  ∧ (host_ws <$> heap Sample.swept !! 0%nat) = Some (Some 1%nat)
  ∧ rooms Sample.swept !! Sample.rid = None
  ∧ result (websocket_disconnect reliable Sample.host_session) Sample.swept
    = Some (Raise (KeyError Sample.rid)).
Proof.
  split; [apply rooms_del_absent|].
  repeat split; vm_compute; reflexivity.
Qed.

(** ** C5 *)

(** C5, as the code has it: a connection that takes the guest slot
    finds the host slot bound, and the server's first action after
    accepting it is to send [peer_joined] to the host connection.  The
    seed carried is [room.game_seed]: the XOR of the seeds when a join
    request has recorded a guest seed, and null when none has; binding
    as guest does not wait for a join request. *)
Theorem guest_binding_pushes_peer_joined net ws rid s l r h :
  rooms s !! upper rid = Some l →
  heap s !! l = Some r →
  host_ws r = Some h →
  guest_ws r = None →
  ∃ res s',
    websocket_endpoint_bind net ws rid s = Some (res, s')
    ∧ heap s' !! l = Some (set_guest_ws (Some ws) r)
    ∧ trace s' = (trace s ++ [Accept ws; SendJson h (msg_peer_joined (game_seed r))])%list
    ∧ (net h = None → res = Ret (Some (mkSession ws (upper rid) l "guest")))
    ∧ match guest_seed r with
      | Some g => game_seed r = Some (Z.lxor (host_seed r) g)
      | None => game_seed r = None
      end.
Proof.
  intros Hk Hl Hh Hg. eexists _, _.
  split; [by eapply websocket_endpoint_bind_guest|].
  split; [apply (heap_lookup_store _ _ _ _ Hl)|].
  split; [done|]. split; [by intros ->|].
  unfold game_seed. by destruct (guest_seed r).
Qed.

(** Counterexample to C5 as stated: in the sample room nobody has
    joined; the second connection takes the guest slot and the host is
    sent [peer_joined] with a null seed. *)
Lemma guest_binds_with_undefined_seed :
  (host_ws <$> heap Sample.host_unjoined !! 0%nat) = Some (Some 1%nat)
  ∧ (game_seed <$> heap Sample.host_unjoined !! 0%nat) = Some None
  ∧ result (websocket_endpoint reliable 2%nat Sample.rid) Sample.host_unjoined
    = Some (Ret (Some Sample.guest_session))
  ∧ trace (exec (websocket_endpoint reliable 2%nat Sample.rid) Sample.host_unjoined)
    = (trace Sample.host_unjoined
       ++ [Accept 2%nat; SendJson 1%nat (msg_peer_joined None);
           SendJson 2%nat (msg_connected "guest" None)])%list
  ∧ msg_peer_joined None = JObj [("type", JStr "peer_joined"); ("game_seed", JNull)].
Proof. repeat split; vm_compute; reflexivity. Qed.

(** Witness of C5: the guest of the sample run. *)
Lemma guest_binding_pushes_peer_joined_witness :
  rooms Sample.host_on !! upper Sample.rid = Some 0%nat
  ∧ ∃ res s',
      websocket_endpoint_bind reliable 2%nat Sample.rid Sample.host_on = Some (res, s')
      ∧ trace s' = (trace Sample.host_on
                    ++ [Accept 2%nat; SendJson 1%nat (msg_peer_joined (Some 59))])%list.
Proof.
  assert (Hk : rooms Sample.host_on !! upper Sample.rid = Some 0%nat)
    by (vm_compute; reflexivity).
  split; [exact Hk|].
  destruct (guest_binding_pushes_peer_joined reliable 2%nat Sample.rid Sample.host_on
              0%nat _ 1%nat Hk eq_refl eq_refl eq_refl)
    as (res & s' & Hrun & _ & Htrace & _).
  exists res, s'. split; [exact Hrun|exact Htrace].
Defined.

(** ** C6 *)

(** C6: admission of a new connection addressed to a room; [rid] is the
    identifier that [str.upper()] returns for the address, whatever
    its spelling.  An unknown room: the socket is closed with code 4004
    and never accepted.  A known room: the socket is accepted; it takes
    the host slot if that is unbound, else the guest slot if that is
    unbound, else it is closed with code 4001.  The two codes differ.
    Hence, on a room with both slots unbound, three connections in a
    row become host, guest and "room full".  For an ASCII address the
    identifier is [upper] of the address. *)
Theorem websocket_admission net ws rid s :
  4004 ≠ 4001
  ∧ (rooms s !! rid = None →
     websocket_endpoint_at net ws rid s
     = Some (Ret None, log [Close ws 4004 "Room not found"] s))
  ∧ (∀ l r, rooms s !! rid = Some l → heap s !! l = Some r →
     match host_ws r, guest_ws r with
     | None, _ =>
         websocket_endpoint_bind_at net ws rid s
         = Some (Ret (Some (mkSession ws rid l "host")),
                 log [Accept ws] (store l (set_host_ws (Some ws) r) s))
     | Some h, None =>
         websocket_endpoint_bind_at net ws rid s
         = Some (match net h with
                 | None => Ret (Some (mkSession ws rid l "guest"))
                 | Some e => Raise e
                 end,
                 log [Accept ws; SendJson h (msg_peer_joined (game_seed r))]
                     (store l (set_guest_ws (Some ws) r) s))
     | Some h, Some g =>
         websocket_endpoint_at net ws rid s
         = Some (Ret None, log [Accept ws; Close ws 4001 "Room is full"] s)
     end)
  ∧ (∀ l r ws2 ws3,
     rooms s !! rid = Some l → heap s !! l = Some r →
     host_ws r = None → guest_ws r = None →
     ∃ s1 s2,
       websocket_endpoint_at reliable ws rid s
       = Some (Ret (Some (mkSession ws rid l "host")), s1)
       ∧ websocket_endpoint_at reliable ws2 rid s1
         = Some (Ret (Some (mkSession ws2 rid l "guest")), s2)
       ∧ heap s2 !! l = Some (set_guest_ws (Some ws2) (set_host_ws (Some ws) r))
       ∧ websocket_endpoint_at reliable ws3 rid s2
         = Some (Ret None, log [Accept ws3; Close ws3 4001 "Room is full"] s2))
  ∧ (∀ address, is_ascii address = true → upper address = rid →
       websocket_endpoint_bind net ws address s
       = websocket_endpoint_bind_at net ws rid s
       ∧ websocket_endpoint net ws address s = websocket_endpoint_at net ws rid s).
Proof.
  split; [done|]. split; [apply websocket_endpoint_at_not_found|]. split; [|split].
  - intros l r Hk Hl.
    destruct (host_ws r) as [h|] eqn:Hh; [destruct (guest_ws r) as [g|] eqn:Hg|].
    + by eapply websocket_endpoint_at_full.
    + by eapply websocket_endpoint_bind_at_guest.
    + by eapply websocket_endpoint_bind_at_host.
  - intros l r ws2 ws3 Hk Hl Hh Hg.
    set (r1 := set_host_ws (Some ws) r).
    set (s1 := log [Accept ws; SendJson ws (msg_connected "host" (game_seed r))]
                   (store l r1 s)).
    set (r2 := set_guest_ws (Some ws2) r1).
    set (s2 := log [Accept ws2; SendJson ws (msg_peer_joined (game_seed r1));
                    SendJson ws2 (msg_connected "guest" (game_seed r1))]
                   (store l r2 s1)).
    assert (Hl1 : heap s1 !! l = Some r1) by apply (heap_lookup_store _ _ _ _ Hl).
    assert (Hl2 : heap s2 !! l = Some r2) by apply (heap_lookup_store _ _ _ _ Hl1).
    exists s1, s2.
    split; [by apply (websocket_endpoint_at_host reliable ws rid s l r Hk Hl)|].
    split; [by apply (websocket_endpoint_at_guest reliable ws2 rid s1 l r1 Hk Hl1 ws)|].
    split; [done|].
    by apply (websocket_endpoint_at_full reliable ws3 rid s2 l r2 Hk Hl2 ws ws2).
  - intros address _ <-. by split.
Qed.

(** ** C7 *)

(** C7: a message received on a connection bound to one slot is sent,
    unchanged, to the connection in the other slot and to no other
    socket; the other socket is not the sender.  With the other slot
    unbound nothing is sent to anyone and the loop goes on. *)
Theorem relay_forwards_only_to_peer net sess s r data :
  heap s !! sess_room sess = Some r →
  distinct_slots r →
  (host_ws r = Some (websocket sess) →
   match guest_ws r with
   | Some g =>
       g ≠ websocket sess
       ∧ relay net sess (Ret data) s
         = Some (match net g with None => Ret tt | Some e => Raise e end,
                 log [SendJson g data] s)
       ∧ (net g = None →
          websocket_receive net sess (Ret data) s
          = Some (Ret (Some sess), log [SendJson g data] s))
   | None => websocket_receive net sess (Ret data) s = Some (Ret (Some sess), s)
   end)
  ∧ (guest_ws r = Some (websocket sess) →
     match host_ws r with
     | Some h =>
         h ≠ websocket sess
         ∧ relay net sess (Ret data) s
           = Some (match net h with None => Ret tt | Some e => Raise e end,
                   log [SendJson h data] s)
         ∧ (net h = None →
            websocket_receive net sess (Ret data) s
            = Some (Ret (Some sess), log [SendJson h data] s))
     | None => websocket_receive net sess (Ret data) s = Some (Ret (Some sess), s)
     end).
Proof.
  intros Hl Hdistinct.
  rewrite (relay_eq net sess s r Hl), (websocket_receive_eq net sess s r Hl).
  unfold get_other_ws. split.
  - intros Hh. rewrite decide_True by done.
    destruct (guest_ws r) as [g|] eqn:Hg; [|done].
    split; [intros ->; by eapply Hdistinct|]. split; [done|]. by intros ->.
  - intros Hg.
    rewrite decide_False by (intros Hh; symmetry in Hh; by eapply Hdistinct).
    rewrite decide_True by done.
    destruct (host_ws r) as [h|] eqn:Hh; [|done].
    split; [intros ->; by eapply Hdistinct|]. split; [done|]. by intros ->.
Qed.

(** Witness of C7: the host of the sample run sends an offer. *)
Lemma relay_forwards_only_to_peer_witness :
  distinct_slots (set_guest_ws (Some 2%nat)
                    (set_host_ws (Some 1%nat)
                       (set_guest_seed (Some 17) (Room_init Sample.rid 42 2 0))))
  ∧ websocket_receive reliable Sample.host_session (Ret (JStr "offer")) Sample.paired
    = Some (Ret (Some Sample.host_session),
            log [SendJson 2%nat (JStr "offer")] Sample.paired).
Proof.
  assert (Hd : distinct_slots (set_guest_ws (Some 2%nat)
                    (set_host_ws (Some 1%nat)
                       (set_guest_seed (Some 17) (Room_init Sample.rid 42 2 0)))))
    by (apply distinct_slots_bind_guest; simpl; congruence).
  split; [exact Hd|].
  destruct (relay_forwards_only_to_peer reliable Sample.host_session Sample.paired _
              (JStr "offer") sample_paired_room Hd) as (Hhost & _).
  destruct (Hhost eq_refl) as (_ & _ & Hrecv).
  apply Hrecv. reflexivity.
Defined.

(** ** C8 *)

(** C8, as the code has it: when the room is still registered under
    the identifier the handler holds, a disconnect returns normally and
    leaves the room in the dictionary exactly when a slot is still
    bound afterwards.  When both slots are unbound the entry is
    deleted: for every spelling that [str.upper()] takes to that
    identifier (for an ASCII spelling, [upper] of it) [join_room]
    answers "Room not found" and a new connection is closed with 4004,
    and no identifier leads to the room any more.  A room that the
    sweep has removed is absent whatever its slots hold. *)
Theorem disconnect_deletes_iff_empty net sess s r :
  heap s !! sess_room sess = Some r →
  rooms s !! sess_room_id sess = Some (sess_room sess) →
  ∃ s',
    websocket_disconnect net sess s = Some (Ret None, s')
    ∧ heap s' !! sess_room sess = Some (unbind (websocket sess) r)
    ∧ (rooms s' !! sess_room_id sess = None
       ↔ host_ws (unbind (websocket sess) r) = None
         ∧ guest_ws (unbind (websocket sess) r) = None)
    ∧ (host_ws (unbind (websocket sess) r) ≠ None
       ∨ guest_ws (unbind (websocket sess) r) ≠ None →
       rooms s' = rooms s)
    ∧ (host_ws (unbind (websocket sess) r) = None
       ∧ guest_ws (unbind (websocket sess) r) = None →
       rooms s' = delete (sess_room_id sess) (rooms s)
       ∧ (∀ seed,
            join_room_at (sess_room_id sess) seed s'
            = Some (Raise (HTTPException 404 "Room not found"), s'))
       ∧ (∀ req, is_ascii (jrq_room_id req) = true →
            upper (jrq_room_id req) = sess_room_id sess →
            join_room req s' = Some (Raise (HTTPException 404 "Room not found"), s'))
       ∧ (∀ net' ws,
            websocket_endpoint_at net' ws (sess_room_id sess) s'
            = Some (Ret None, log [Close ws 4004 "Room not found"] s'))
       ∧ (∀ net' ws rid, is_ascii rid = true → upper rid = sess_room_id sess →
            websocket_endpoint net' ws rid s'
            = Some (Ret None, log [Close ws 4004 "Room not found"] s'))
       ∧ (consistent s → ∀ k, rooms s' !! k ≠ Some (sess_room sess))).
Proof.
  intros Hl Hk. rewrite (websocket_disconnect_eq net sess s r Hl), Hk.
  set (r' := unbind (websocket sess) r).
  assert (Hl' : heap (store (sess_room sess) r' s) !! sess_room sess = Some r')
    by apply (heap_lookup_store _ _ _ _ Hl).
  destruct (host_ws r') as [h|] eqn:Hh; [|destruct (guest_ws r') as [g|] eqn:Hg]; simpl.
  - eexists. split; [done|]. split; [done|]. cbn [rooms store]. rewrite Hk.
    split; [split; [done|by intros [? _]]|]. split; [done|by intros [? _]].
  - eexists. split; [done|]. split; [done|]. cbn [rooms store]. rewrite Hk.
    split; [split; [done|by intros [_ ?]]|]. split; [done|by intros [_ ?]].
  - eexists. split; [done|]. split; [done|]. cbn [rooms]. rewrite lookup_delete_eq.
    split; [done|]. split; [by intros [?|?]|]. intros _. split; [done|].
    split; [|split; [|split; [|split]]].
    + intros seed. apply join_room_at_not_found. cbn [rooms]. apply lookup_delete_eq.
    + intros req _ Hreq. apply join_room_not_found. cbn [rooms].
      rewrite Hreq. apply lookup_delete_eq.
    + intros net' ws. apply websocket_endpoint_at_not_found. cbn [rooms].
      apply lookup_delete_eq.
    + intros net' ws rid _ Hrid. apply websocket_endpoint_not_found. cbn [rooms].
      rewrite Hrid. apply lookup_delete_eq.
    + intros Hcons k Hk'. apply lookup_delete_Some in Hk' as [Hne Hk'].
      destruct (Hcons _ _ Hk) as (r1 & Hr1 & Hid1).
      destruct (Hcons _ _ Hk') as (r2 & Hr2 & Hid2). congruence.
Qed.

(** Counterexample to C8 as stated: the sample room, with host and
    guest connected, is swept by a later [create_room].  The guest
    then disconnects: the handler returns normally, the host slot is
    still bound, and the room is not registered. *)
Lemma swept_room_absent_while_bound :
  rooms Sample.paired !! Sample.rid = Some 0%nat
  ∧ create_room (2 * one_hour) (2 * one_hour) ["Zz9-_aBc"] Sample.request Sample.paired
    = Some (Ret {| crs_room_id := "ZZ9-_ABC"; crs_player_color := "white";
                   crs_max_superpositions := 2 |}, sample_paired_swept)
  ∧ (host_ws <$> heap sample_paired_swept !! 0%nat) = Some (Some 1%nat)
  ∧ (guest_ws <$> heap sample_paired_swept !! 0%nat) = Some (Some 2%nat)
  ∧ result (websocket_disconnect reliable Sample.guest_session) sample_paired_swept
    = Some (Ret None)
  ∧ (host_ws <$>
       heap (exec (websocket_disconnect reliable Sample.guest_session)
               sample_paired_swept) !! 0%nat)
    = Some (Some 1%nat)
  ∧ rooms (exec (websocket_disconnect reliable Sample.guest_session)
             sample_paired_swept) !! Sample.rid = None.
Proof. repeat split; vm_compute; reflexivity. Qed.

(** Witness of C8: the guest of the sample run leaves; the host slot
    is still bound and the room stays registered. *)
Lemma disconnect_deletes_iff_empty_witness :
  rooms Sample.paired !! Sample.rid = Some 0%nat
  ∧ ∃ s1,
      websocket_disconnect reliable Sample.guest_session Sample.paired
      = Some (Ret None, s1)
      ∧ (host_ws <$> heap s1 !! 0%nat) = Some (Some 1%nat)
      ∧ (rooms s1 !! Sample.rid = None → False).
Proof.
  assert (Hk : rooms Sample.paired !! Sample.rid = Some 0%nat)
    by (vm_compute; reflexivity).
  split; [exact Hk|].
  destruct (disconnect_deletes_iff_empty reliable Sample.guest_session Sample.paired _
              sample_paired_room Hk) as (s1 & Hrun1 & Hl1 & Hiff1 & _).
  exists s1. split; [exact Hrun1|]. split.
  - cbn [sess_room Sample.guest_session] in Hl1. rewrite Hl1. reflexivity.
  - intros E. apply Hiff1 in E as [E _]. vm_compute in E. discriminate.
Defined.

(** ** C9 *)

(** C9: the combined seed is the XOR of the host and guest seeds, it is
    defined exactly when the guest seed is set, it is a function of the
    two seeds only, and swapping the two seeds gives the same value. *)
Theorem game_seed_xor_commutative (r : Room) :
  game_seed r = Z.lxor (host_seed r) <$> guest_seed r
  ∧ (is_Some (game_seed r) ↔ is_Some (guest_seed r))
  ∧ ∀ a b rid1 rid2 m1 m2 h1 h2 g1 g2 t1 t2,
      game_seed (mkRoom rid1 a m1 (Some b) h1 g1 t1) = Some (Z.lxor a b)
      ∧ game_seed (mkRoom rid1 a m1 (Some b) h1 g1 t1)
        = game_seed (mkRoom rid2 b m2 (Some a) h2 g2 t2).
Proof.
  unfold game_seed. split; [|split].
  - by destruct (guest_seed r).
  - destruct (guest_seed r); simpl; split; intros [x Hx]; try discriminate; by eexists.
  - intros. simpl. split; [done|]. by rewrite Z.lxor_comm.
Qed.

(** ** C10 *)

(** C10: an identifier returned by [create_room] has at most 8
    characters and is unchanged by upper-casing, so [join_room] and the
    websocket endpoint, which upper-case the identifier they are given,
    find the new room when given the returned identifier as it is:
    [join_room] answers for that room and a connection binds as its
    host. *)
Theorem create_room_id_found now_sweep now_init draws req s resp s' :
  create_room now_sweep now_init draws req s = Some (Ret resp, s') →
  (String.length (crs_room_id resp) ≤ 8)%nat
  ∧ upper (crs_room_id resp) = crs_room_id resp
  ∧ (∃ token, token ∈ draws ∧ crs_room_id resp = upper (slice_to 8 token))
  ∧ rooms s' !! upper (crs_room_id resp) = Some (List.length (heap s))
  ∧ heap s' !! List.length (heap s)
    = Some (Room_init (crs_room_id resp) (crq_seed req)
              (crs_max_superpositions resp) now_init)
  ∧ (∀ seed, ∃ s2,
       join_room (mkJoinRoomRequest (crs_room_id resp) seed) s'
       = Some (Ret {| jrs_room_id := crs_room_id resp; jrs_player_color := "black";
                      jrs_game_seed := Z.lxor (crq_seed req) seed;
                      jrs_max_superpositions := crs_max_superpositions resp |}, s2))
  ∧ (∀ net ws, ∃ s2,
       websocket_endpoint_bind net ws (crs_room_id resp) s'
       = Some (Ret (Some (mkSession ws (crs_room_id resp)
                            (List.length (heap s)) "host")), s2)).
Proof.
  intros H.
  destruct (create_room_registers _ _ _ _ _ _ _ H)
    as ((token & Hin & Hrid) & _ & Hk & Hl).
  assert (Hup : upper (crs_room_id resp) = crs_room_id resp)
    by (rewrite Hrid; apply generate_room_id_upper).
  rewrite Hup.
  split; [rewrite Hrid; apply generate_room_id_length|].
  split; [done|].
  split; [by exists token|].
  split; [done|]. split; [done|]. split.
  - intros seed. eexists.
    erewrite join_room_found; [| |exact Hl]; [reflexivity|].
    cbn [jrq_room_id]. by rewrite Hup.
  - intros net ws. eexists.
    erewrite websocket_endpoint_bind_host; [| |exact Hl|done].
    + by rewrite Hup.
    + by rewrite Hup.
Qed.

(** Witness of C10 on the sample run. *)
Lemma create_room_id_found_witness :
  create_room 0 0 [Sample.token] Sample.request empty_server
  = Some (Ret {| crs_room_id := Sample.rid; crs_player_color := "white";
                 crs_max_superpositions := 2 |}, Sample.created)
  ∧ (String.length Sample.rid ≤ 8)%nat
  ∧ upper Sample.rid = Sample.rid
  ∧ rooms Sample.created !! upper Sample.rid = Some 0%nat.
Proof.
  assert (H : create_room 0 0 [Sample.token] Sample.request empty_server
              = Some (Ret {| crs_room_id := Sample.rid; crs_player_color := "white";
                             crs_max_superpositions := 2 |}, Sample.created))
    by (vm_compute; reflexivity).
  split; [exact H|].
  destruct (create_room_id_found _ _ _ _ _ _ _ H) as (Hlen & Hup & _ & Hk & _).
  split; [exact Hlen|]. split; [exact Hup|exact Hk].
Defined.

(** * Further properties *)

#[local] Set Warnings "-clear-no-such-hyp".

(** ** create_room and the sweep *)

Lemma clamp_range m : (1 ≤ clamp m ≤ 5)%Z.
Proof. unfold clamp. lia. Qed.

(** X1: the branch limit that [create_room] stores and returns lies in
    1..5; a request inside the range is kept, one below gives 1, one
    above gives 5. *)
Theorem create_room_clamps now_sweep now_init draws req s resp s' :
  create_room now_sweep now_init draws req s = Some (Ret resp, s') →
  (1 ≤ crs_max_superpositions resp ≤ 5)%Z
  ∧ ((1 ≤ maxSuperpositions req ≤ 5)%Z →
     crs_max_superpositions resp = maxSuperpositions req)
  ∧ (maxSuperpositions req < 1 → crs_max_superpositions resp = 1)
  ∧ (5 < maxSuperpositions req → crs_max_superpositions resp = 5)
  ∧ ∃ l r, rooms s' !! crs_room_id resp = Some l
           ∧ heap s' !! l = Some r
           ∧ max_superpositions r = crs_max_superpositions resp
           ∧ host_seed r = crq_seed req
           ∧ guest_seed r = None.
Proof.
  intros H.
  destruct (create_room_registers _ _ _ _ _ _ _ H) as (_ & Hmax & Hk & Hl).
  rewrite Hmax. unfold clamp.
  split; [lia|]. split; [lia|]. split; [lia|]. split; [lia|].
  eexists _, _. split; [exact Hk|]. split; [exact Hl|]. by rewrite Hmax.
Qed.

Lemma create_room_clamps_witness :
  create_room 0 0 [Sample.token] (mkCreateRoomRequest 42 7) empty_server
  = Some (Ret {| crs_room_id := Sample.rid; crs_player_color := "white";
                 crs_max_superpositions := 5 |},
          exec (create_room 0 0 [Sample.token] (mkCreateRoomRequest 42 7))
               empty_server)
  ∧ (1 ≤ 5 ≤ 5)%Z.
Proof.
  assert (H : create_room 0 0 [Sample.token] (mkCreateRoomRequest 42 7) empty_server
              = Some (Ret {| crs_room_id := Sample.rid; crs_player_color := "white";
                             crs_max_superpositions := 5 |},
                      exec (create_room 0 0 [Sample.token] (mkCreateRoomRequest 42 7))
                           empty_server))
    by (vm_compute; reflexivity).
  split; [exact H|].
  destruct (create_room_clamps _ _ _ _ _ _ _ H) as (Hrange & _).
  exact Hrange.
Defined.

(** X2: [create_room] leaves every room that is not over age as it was,
    registered under the same identifier, and gives the new room an
    identifier different from all of them; it does nothing on any
    socket. *)
Theorem create_room_keeps_live_rooms now_sweep now_init draws req s resp s' k l r :
  create_room now_sweep now_init draws req s = Some (Ret resp, s') →
  rooms s !! k = Some l →
  heap s !! l = Some r →
  (now_sweep - one_hour ≤ created_at r)%Z →
  k ≠ crs_room_id resp
  ∧ rooms s' !! k = Some l
  ∧ heap s' !! l = Some r
  ∧ trace s' = trace s.
Proof.
  intros Hcreate Hk Hl Hage.
  destruct (create_room_inv _ _ _ _ _ _ _ Hcreate)
    as (s1 & rid & Hsweep & Hfree & _ & -> & ->).
  pose proof (cleanup_old_rooms_allocated _ _ _ _ Hsweep) as Halloc.
  destruct (cleanup_old_rooms_spec now_sweep s Halloc)
    as (s1' & Hsweep' & Hheap & Htrace & Hrooms).
  rewrite Hsweep in Hsweep'. injection Hsweep' as <-.
  assert (Hk1 : rooms s1 !! k = Some l).
  { rewrite Hrooms, Hk. unfold expired_at. simpl. rewrite Hl.
    by rewrite bool_decide_eq_false_2 by lia. }
  assert (Hne : rid ≠ k) by (intros ->; congruence).
  cbn [crs_room_id rooms heap trace].
  split; [done|]. split; [by rewrite lookup_insert_ne|].
  split; [|done]. rewrite Hheap. by apply lookup_app_l_Some.
Qed.

Lemma create_room_keeps_live_rooms_witness :
  rooms Sample.host_unjoined !! Sample.rid = Some 0%nat
  ∧ (one_hour - one_hour ≤ 0)%Z
  ∧ rooms (exec (create_room one_hour one_hour ["Zz9-_aBc"] Sample.request)
                Sample.host_unjoined) !! Sample.rid = Some 0%nat.
Proof.
  assert (Hc : create_room one_hour one_hour ["Zz9-_aBc"] Sample.request
                 Sample.host_unjoined
               = Some (Ret {| crs_room_id := "ZZ9-_ABC"; crs_player_color := "white";
                              crs_max_superpositions := 2 |},
                       exec (create_room one_hour one_hour ["Zz9-_aBc"] Sample.request)
                            Sample.host_unjoined))
    by (vm_compute; reflexivity).
  assert (Hk : rooms Sample.host_unjoined !! Sample.rid = Some 0%nat)
    by (vm_compute; reflexivity).
  assert (Hl : heap Sample.host_unjoined !! 0%nat
               = Some (set_host_ws (Some 1%nat) (Room_init Sample.rid 42 2 0)))
    by reflexivity.
  assert (Hage : (one_hour - one_hour ≤ 0)%Z) by (vm_compute; discriminate).
  split; [exact Hk|]. split; [exact Hage|].
  destruct (create_room_keeps_live_rooms _ _ _ _ _ _ _ _ _ _ Hc Hk Hl Hage)
    as (_ & Hkeep & _).
  exact Hkeep.
Defined.

Lemma cleanup_old_rooms_returns now s res s1 :
  cleanup_old_rooms now s = Some (res, s1) → res = Ret tt.
Proof.
  intros H. pose proof (cleanup_old_rooms_allocated _ _ _ _ H) as Halloc.
  destruct (cleanup_old_rooms_spec now s Halloc) as (s' & Hrun & _).
  congruence.
Qed.

Lemma create_room_never_raises now_sweep now_init draws req s res s' :
  create_room now_sweep now_init draws req s = Some (res, s') →
  ∃ resp, res = Ret resp.
Proof.
  unfold create_room, bind at 1.
  destruct (cleanup_old_rooms now_sweep s) as [[res1 s1]|] eqn:Hsweep; [|discriminate].
  rewrite (cleanup_old_rooms_returns _ _ _ _ Hsweep).
  unfold bind at 1, fresh_room_id.
  destruct draws as [|token rest]; [discriminate|].
  destruct (while_in_rooms _ _ _) as [rid|]; [|discriminate].
  py_run. intros [= <- <-]. by eexists.
Qed.

(** X3: [create_room] never raises, and it answers whenever every
    registered room is in the store and at least one drawn token gives
    an unused identifier: the collision loop ends. *)
Theorem create_room_total now_sweep now_init draws req s :
  (∀ res s', create_room now_sweep now_init draws req s = Some (res, s') →
             ∃ resp, res = Ret resp)
  ∧ (allocated s →
     (∃ token, token ∈ draws ∧ rooms s !! generate_room_id token = None) →
     ∃ resp s', create_room now_sweep now_init draws req s = Some (Ret resp, s')).
Proof.
  split; [apply create_room_never_raises|apply create_room_returns].
Qed.

Lemma create_room_total_witness :
  ∃ resp s', create_room 0 0 [Sample.token; "Zz9-_aBc"] Sample.request Sample.created
             = Some (Ret resp, s').
Proof.
  assert (Halloc : allocated Sample.created).
  { apply consistent_allocated.
    exact (create_room_consistent _ _ _ _ _ _ _ consistent_empty sample_created). }
  destruct (create_room_total 0 0 [Sample.token; "Zz9-_aBc"] Sample.request
              Sample.created) as (_ & Hrun).
  apply Hrun; [exact Halloc|].
  exists "Zz9-_aBc". split; [right; left|]. vm_compute. reflexivity.
Defined.

Lemma while_in_rooms_first rs draws rid0 rid :
  while_in_rooms rs rid0 draws = Some rid →
  (rid = rid0 ∧ rs !! rid0 = None)
  ∨ (is_Some (rs !! rid0)
     ∧ ∃ pre token post,
         draws = (pre ++ token :: post)%list
         ∧ rid = generate_room_id token
         ∧ rs !! rid = None
         ∧ ∀ t, t ∈ pre → is_Some (rs !! generate_room_id t)).
Proof.
  revert rid0; induction draws as [|token rest IH]; intros rid0; simpl.
  - case_bool_decide as Hin; [discriminate|]. intros [= <-]. left.
    split; [done|]. by apply eq_None_not_Some.
  - case_bool_decide as Hin.
    + intros H. right. split; [done|].
      destruct (IH _ H) as [[-> Hfree]|(Htaken & pre & t & post & -> & -> & Hfree & Hpre)].
      * exists [], token, rest. split; [done|]. split; [done|]. split; [done|].
        intros t Ht. by apply elem_of_nil in Ht.
      * exists (token :: pre), t, post. split; [done|]. split; [done|].
        split; [done|]. intros t' [->|Ht']%elem_of_cons; [done|by apply Hpre].
    + intros [= <-]. left. split; [done|]. by apply eq_None_not_Some.
Qed.

(** X4: the identifier of the new room comes from the first drawn
    token whose identifier is unused once the sweep has run; every
    token drawn before it collided with a registered room. *)
Theorem create_room_first_free_draw now_sweep now_init draws req s resp s' :
  create_room now_sweep now_init draws req s = Some (Ret resp, s') →
  ∃ s1 pre token post,
    cleanup_old_rooms now_sweep s = Some (Ret tt, s1)
    ∧ draws = (pre ++ token :: post)%list
    ∧ crs_room_id resp = generate_room_id token
    ∧ rooms s1 !! generate_room_id token = None
    ∧ (∀ t, t ∈ pre → is_Some (rooms s1 !! generate_room_id t))
    ∧ rooms s' = <[generate_room_id token := List.length (heap s)]> (rooms s1).
Proof.
  unfold create_room. intros H.
  apply bind_Ret_inv in H as ([] & s1 & Hsweep & H).
  apply bind_Ret_inv in H as (rid & s2 & Hfresh & H).
  destruct (cleanup_old_rooms_frame _ _ _ _ Hsweep) as (Hheap & _ & _).
  unfold fresh_room_id in Hfresh.
  destruct draws as [|token0 rest]; [discriminate|].
  destruct (while_in_rooms (rooms s1) (generate_room_id token0) rest) as [rid'|] eqn:Hloop;
    [|discriminate].
  injection Hfresh as -> <-.
  revert H. py_run. intros [= <- <-]. cbn [crs_room_id rooms]. rewrite <- Hheap.
  apply while_in_rooms_first in Hloop
    as [[-> Hfree]|(Htaken & pre & t & post & -> & -> & Hfree & Hpre)].
  - exists s1, [], token0, rest. repeat split; try done.
    intros t Ht. by apply elem_of_nil in Ht.
  - exists s1, (token0 :: pre), t, post. repeat split; try done.
    intros t' [->|Ht']%elem_of_cons; [done|by apply Hpre].
Qed.

Lemma create_room_first_free_draw_witness :
  ∃ s1 pre token post,
    cleanup_old_rooms 0 Sample.created = Some (Ret tt, s1)
    ∧ [Sample.token; "Zz9-_aBc"] = (pre ++ token :: post)%list
    ∧ "ZZ9-_ABC" = generate_room_id token
    ∧ ∀ t, t ∈ pre → is_Some (rooms s1 !! generate_room_id t).
Proof.
  assert (Hc : create_room 0 0 [Sample.token; "Zz9-_aBc"] Sample.request Sample.created
               = Some (Ret {| crs_room_id := "ZZ9-_ABC"; crs_player_color := "white";
                              crs_max_superpositions := 2 |},
                       exec (create_room 0 0 [Sample.token; "Zz9-_aBc"] Sample.request)
                            Sample.created))
    by (vm_compute; reflexivity).
  destruct (create_room_first_free_draw _ _ _ _ _ _ _ Hc)
    as (s1 & pre & token & post & Hsweep & Hdraws & Hid & _ & Hpre & _).
  exists s1, pre, token, post.
  split; [exact Hsweep|]. split; [exact Hdraws|]. split; [exact Hid|exact Hpre].
Defined.

(** X5: the sweep never raises, touches neither the rooms themselves
    nor any socket, and is stable: a second sweep with a clock reading
    that is not later changes nothing. *)
Theorem cleanup_old_rooms_idempotent now now' s res s1 :
  cleanup_old_rooms now s = Some (res, s1) →
  (now' ≤ now)%Z →
  res = Ret tt
  ∧ heap s1 = heap s
  ∧ trace s1 = trace s
  ∧ cleanup_old_rooms now' s1 = Some (Ret tt, s1).
Proof.
  intros Hsweep Hle.
  pose proof (cleanup_old_rooms_allocated _ _ _ _ Hsweep) as Halloc.
  destruct (cleanup_old_rooms_spec now s Halloc)
    as (s1' & Hsweep' & Hheap & Htrace & Hrooms).
  rewrite Hsweep in Hsweep'. injection Hsweep' as -> <-.
  split; [done|]. split; [done|]. split; [done|].
  assert (Halloc1 : allocated s1).
  { intros k l Hk. rewrite Hheap. apply (Halloc k).
    rewrite Hrooms in Hk. destruct (rooms s !! k) as [l'|]; [|done].
    by destruct (expired_at _ s (k, l')); [|injection Hk as ->]. }
  destruct (cleanup_old_rooms_spec now' s1 Halloc1)
    as (s2 & Hsweep2 & Hheap2 & Htrace2 & Hrooms2).
  rewrite Hsweep2. f_equal. f_equal.
  destruct s1 as [rs1 h1 t1], s2 as [rs2 h2 t2]. simpl in *. subst h2 t2.
  f_equal. apply map_eq. intros k. rewrite Hrooms2.
  destruct (rs1 !! k) as [l|] eqn:Hk; [|done].
  rewrite Hrooms in Hk. destruct (rooms s !! k) as [l'|]; [|done].
  destruct (expired_at (now - one_hour) s (k, l')) eqn:Hexp; [done|].
  injection Hk as ->.
  unfold expired_at in *. simpl in *. rewrite Hheap.
  destruct (heap s !! l) as [r|]; [|done].
  apply bool_decide_eq_false in Hexp.
  by rewrite bool_decide_eq_false_2 by lia.
Qed.

Lemma cleanup_old_rooms_idempotent_witness :
  cleanup_old_rooms (2 * one_hour) Sample.host_unjoined
  = Some (Ret tt, exec (cleanup_old_rooms (2 * one_hour)) Sample.host_unjoined)
  ∧ (one_hour ≤ 2 * one_hour)%Z
  ∧ cleanup_old_rooms one_hour
      (exec (cleanup_old_rooms (2 * one_hour)) Sample.host_unjoined)
    = Some (Ret tt, exec (cleanup_old_rooms (2 * one_hour)) Sample.host_unjoined).
Proof.
  assert (H : cleanup_old_rooms (2 * one_hour) Sample.host_unjoined
              = Some (Ret tt, exec (cleanup_old_rooms (2 * one_hour))
                                   Sample.host_unjoined))
    by (vm_compute; reflexivity).
  assert (Hle : (one_hour ≤ 2 * one_hour)%Z) by (vm_compute; discriminate).
  split; [exact H|]. split; [exact Hle|].
  destruct (cleanup_old_rooms_idempotent _ _ _ _ _ H Hle) as (_ & _ & _ & Hagain).
  exact Hagain.
Defined.

(** ** join_room *)

(** X6: [join_room], looking up the identifier [rid] that
    [str.upper()] returned for the request, changes nothing but the
    guest seed of the room registered under [rid]: the dictionary, the
    sockets and every room's identifier, host seed, branch limit,
    connection slots and age stay as they were.  It fails only with
    404 or 400, and then changes nothing.  For a request whose
    identifier is ASCII, [rid] is [upper] of it. *)
Theorem join_room_only_sets_guest_seed rid seed s res s' :
  join_room_at rid seed s = Some (res, s') →
  rooms s' = rooms s
  ∧ trace s' = trace s
  ∧ (∀ e, res = Raise e →
       s' = s ∧ (e = HTTPException 404 "Room not found"
                 ∨ e = HTTPException 400 "Room is full"))
  ∧ (∀ l r, heap s !! l = Some r →
      ∃ r', heap s' !! l = Some r'
            ∧ room_id r' = room_id r
            ∧ host_seed r' = host_seed r
            ∧ max_superpositions r' = max_superpositions r
            ∧ host_ws r' = host_ws r
            ∧ guest_ws r' = guest_ws r
            ∧ created_at r' = created_at r
            ∧ (rooms s !! rid ≠ Some l → r' = r))
  ∧ (∀ req, is_ascii (jrq_room_id req) = true →
       upper (jrq_room_id req) = rid → jrq_seed req = seed →
       join_room req s = Some (res, s')).
Proof.
  intros Hrun.
  assert (Hlink : ∀ req, is_ascii (jrq_room_id req) = true →
            upper (jrq_room_id req) = rid → jrq_seed req = seed →
            join_room req s = Some (res, s')).
  { intros req _ Hid Hseed. rewrite join_room_at_upper, Hid, Hseed. exact Hrun. }
  revert Hrun.
  destruct (rooms s !! rid) as [l0|] eqn:Hk.
  - destruct (heap s !! l0) as [r0|] eqn:Hl0.
    + rewrite (join_room_at_found _ _ _ _ _ Hk Hl0).
      destruct (is_full r0).
      * intros [= <- <-]. split; [done|]. split; [done|].
        split; [intros e [= <-]; split; [done|by right]|]. split; [|exact Hlink].
        intros l r Hl. exists r. by repeat split.
      * intros [= <- <-]. split; [done|]. split; [done|]. split; [done|].
        split; [|exact Hlink].
        intros l r Hl. cbn [heap store].
        destruct (decide (l0 = l)) as [<-|Hne].
        -- rewrite (heap_lookup_store _ _ _ _ Hl0).
           assert (r = r0) as -> by congruence.
           eexists. split; [done|]. by repeat split.
        -- rewrite list_lookup_insert_ne by done. exists r. by repeat split.
    + unfold join_room_at. py_run. discriminate.
  - rewrite (join_room_at_not_found _ _ _ Hk). intros [= <- <-].
    split; [done|]. split; [done|].
    split; [intros e [= <-]; split; [done|by left]|]. split; [|exact Hlink].
    intros l r Hl. exists r. by repeat split.
Qed.

Lemma join_room_only_sets_guest_seed_witness :
  join_room_at Sample.rid 99 Sample.host_on
  = Some (Ret {| jrs_room_id := Sample.rid; jrs_player_color := "black";
                 jrs_game_seed := 73; jrs_max_superpositions := 2 |},
          exec (join_room_at Sample.rid 99) Sample.host_on)
  ∧ ∃ r', heap (exec (join_room_at Sample.rid 99) Sample.host_on)
            !! 0%nat = Some r'
          ∧ host_ws r' = Some 1%nat.
Proof.
  assert (H : join_room_at Sample.rid 99 Sample.host_on
              = Some (Ret {| jrs_room_id := Sample.rid; jrs_player_color := "black";
                             jrs_game_seed := 73; jrs_max_superpositions := 2 |},
                      exec (join_room_at Sample.rid 99) Sample.host_on))
    by (vm_compute; reflexivity).
  split; [exact H|].
  destruct (join_room_only_sets_guest_seed _ _ _ _ _ H) as (_ & _ & _ & Hframe & _).
  destruct (Hframe 0%nat _ eq_refl) as (r' & Hl & _ & _ & _ & Hh & _).
  exists r'. split; [exact Hl|exact Hh].
Defined.

(** ** Identifiers *)





(** X8: the lookups ignore the case of an ASCII identifier.  Two ASCII
    spellings with the same upper-casing are treated alike by
    [join_room] and by the websocket endpoint in every state, and both
    behave as the lookups past [str.upper()] do for that upper-cased
    identifier.  So any ASCII spelling whose upper-casing is the
    identifier returned by [create_room] reaches the new room, and the
    answer of [join_room] carries the stored identifier, not the
    caller's spelling. *)
Theorem lookup_ignores_case x y :
  is_ascii x = true →
  is_ascii y = true →
  upper x = upper y →
  (∀ seed s, join_room (mkJoinRoomRequest x seed) s
             = join_room (mkJoinRoomRequest y seed) s
             ∧ join_room (mkJoinRoomRequest x seed) s
               = join_room_at (upper y) seed s)
  ∧ (∀ net ws s, websocket_endpoint net ws x s = websocket_endpoint net ws y s
                 ∧ websocket_endpoint net ws x s
                   = websocket_endpoint_at net ws (upper y) s)
  ∧ (∀ now_sweep now_init draws req s resp s',
       create_room now_sweep now_init draws req s = Some (Ret resp, s') →
       upper x = crs_room_id resp →
       (∀ seed, ∃ s2,
          join_room (mkJoinRoomRequest x seed) s'
          = Some (Ret {| jrs_room_id := crs_room_id resp;
                         jrs_player_color := "black";
                         jrs_game_seed := Z.lxor (crq_seed req) seed;
                         jrs_max_superpositions := crs_max_superpositions resp |},
                  s2))
       ∧ (∀ net ws, ∃ s2,
            websocket_endpoint_bind net ws x s'
            = Some (Ret (Some (mkSession ws (crs_room_id resp)
                                 (List.length (heap s)) "host")), s2))).
Proof.
  intros _ _ Hxy. split; [|split].
  - intros seed s. rewrite !join_room_at_upper. cbn [jrq_room_id jrq_seed].
    by rewrite Hxy.
  - intros net ws s. rewrite !websocket_endpoint_at_upper. by rewrite Hxy.
  - intros now_sweep now_init draws req s resp s' H Hx.
    destruct (create_room_registers _ _ _ _ _ _ _ H) as (_ & _ & Hk & Hl).
    split.
    + intros seed. eexists.
      erewrite join_room_found; [| |exact Hl]; [reflexivity|].
      cbn [jrq_room_id]. by rewrite Hx.
    + intros net ws. eexists.
      erewrite websocket_endpoint_bind_host; [| |exact Hl|done].
      * by rewrite Hx.
      * by rewrite Hx.
Qed.

Lemma lookup_ignores_case_witness :
  is_ascii "q7zK-Mp_" = true
  ∧ is_ascii "Q7Zk-mP_" = true
  ∧ upper "q7zK-Mp_" = upper "Q7Zk-mP_"
  ∧ join_room (mkJoinRoomRequest "q7zK-Mp_" 17) Sample.created
    = join_room (mkJoinRoomRequest "Q7Zk-mP_" 17) Sample.created
  ∧ ∃ s2, join_room (mkJoinRoomRequest "q7zK-Mp_" 17) Sample.created
          = Some (Ret {| jrs_room_id := Sample.rid; jrs_player_color := "black";
                         jrs_game_seed := Z.lxor 42 17;
                         jrs_max_superpositions := 2 |}, s2).
Proof.
  assert (Hx : is_ascii "q7zK-Mp_" = true) by reflexivity.
  assert (Hy : is_ascii "Q7Zk-mP_" = true) by reflexivity.
  assert (Hxy : upper "q7zK-Mp_" = upper "Q7Zk-mP_") by reflexivity.
  split; [exact Hx|]. split; [exact Hy|]. split; [exact Hxy|].
  destruct (lookup_ignores_case _ _ Hx Hy Hxy) as (Hjoin & _ & Hnew).
  split; [exact (proj1 (Hjoin 17 Sample.created))|].
  destruct (Hnew _ _ _ _ _ _ _ sample_created eq_refl) as (Hfound & _).
  exact (Hfound 17).
Defined.

(** ** The coroutine, case by case *)

Lemma on_disconnect_then_None net sess s :
  bind (on_disconnect net sess) (fun _ => ret None) s
  = websocket_disconnect net sess s.
Proof. reflexivity. Qed.

Lemma guarded_send_connected_eq net sess s r :
  heap s !! sess_room sess = Some r →
  guarded net sess (send_connected net sess) s
  = match net (websocket sess) with
    | None =>
        Some (Ret (Some sess),
              log [SendJson (websocket sess)
                     (msg_connected (sess_role sess) (game_seed r))] s)
    | Some WebSocketDisconnect =>
        websocket_disconnect net sess
          (log [SendJson (websocket sess)
                  (msg_connected (sess_role sess) (game_seed r))] s)
    | Some e =>
        Some (Raise e,
              log [SendJson (websocket sess)
                     (msg_connected (sess_role sess) (game_seed r))] s)
    end.
Proof.
  intros Hl. rewrite <- on_disconnect_then_None.
  unfold guarded, send_connected, try_except.
  unfold bind at 1. unfold bind at 1, deref at 1. rewrite Hl.
  unfold send_json, bind at 1, emit at 1.
  destruct (net (websocket sess)) as [[]|]; reflexivity.
Qed.

Lemma websocket_disconnect_shape net sess s r :
  heap s !! sess_room sess = Some r →
  ∃ res s',
    websocket_disconnect net sess s = Some (res, s')
    ∧ heap s' = <[sess_room sess := unbind (websocket sess) r]> (heap s)
    ∧ trace s' = trace s
    ∧ (rooms s' = rooms s ∨ rooms s' = delete (sess_room_id sess) (rooms s))
    ∧ (res = Ret None ∨ res = Raise (KeyError (sess_room_id sess))).
Proof.
  intros Hl. rewrite (websocket_disconnect_eq net sess s r Hl).
  destruct (is_None _ && is_None _);
    [destruct (rooms s !! sess_room_id sess)|]; eexists _, _;
    (split; [reflexivity|]); cbn [heap rooms trace store]; auto.
Qed.

Lemma websocket_endpoint_shape net ws rid s res s' :
  websocket_endpoint net ws rid s = Some (res, s') →
  (rooms s' = rooms s ∨ rooms s' = delete (upper rid) (rooms s))
  ∧ ((heap s' = heap s ∧ res = Ret None)
     ∨ ∃ l r r' role,
         rooms s !! upper rid = Some l
         ∧ heap s !! l = Some r
         ∧ heap s' = <[l := r']> (heap s)
         ∧ admitted ws r r' role
         ∧ (∀ sess, res = Ret (Some sess) →
              role = Some (sess_role sess)
              ∧ sess = mkSession ws (upper rid) l (sess_role sess))).
Proof.
  destruct (rooms s !! upper rid) as [l|] eqn:Hk.
  2:{ rewrite (websocket_endpoint_not_found net ws rid s Hk).
      intros [= <- <-]. split; [by left|]. by left. }
  destruct (heap s !! l) as [r|] eqn:Hl.
  2:{ unfold websocket_endpoint, websocket_endpoint_bind. py_run. discriminate. }
  assert (Hshape : ∀ role r1 (sess : Session),
    sess = mkSession ws (upper rid) l role →
    websocket_endpoint_bind net ws rid s
      = Some (Ret (Some sess), log [Accept ws] (store l r1 s))
      ∨ (∃ h, websocket_endpoint_bind net ws rid s
              = Some (Ret (Some sess),
                      log [Accept ws; SendJson h (msg_peer_joined (game_seed r))]
                          (store l r1 s))) →
    admitted ws r r1 (Some role) →
    admitted ws r (unbind ws r1) None →
    websocket_endpoint net ws rid s = Some (res, s') →
    (rooms s' = rooms s ∨ rooms s' = delete (upper rid) (rooms s))
    ∧ ∃ r' role', heap s' = <[l := r']> (heap s) ∧ admitted ws r r' role'
        ∧ (∀ sess', res = Ret (Some sess') →
             role' = Some (sess_role sess')
             ∧ sess' = mkSession ws (upper rid) l (sess_role sess'))).
  { intros role r1 sess -> Hb Hadm Hgone. unfold websocket_endpoint.
    assert (∃ s1, websocket_endpoint_bind net ws rid s
                  = Some (Ret (Some (mkSession ws (upper rid) l role)), s1)
                  ∧ heap s1 = <[l := r1]> (heap s) ∧ rooms s1 = rooms s)
      as (s1 & Hb1 & Hheap1 & Hrooms1).
    { destruct Hb as [Hb|[h Hb]]; eexists; (split; [exact Hb|]); by split. }
    rewrite (bind_Ret _ _ _ _ _ Hb1).
    assert (Hl1 : heap s1 !! l = Some r1)
      by (rewrite Hheap1; apply (heap_lookup_store _ _ _ _ Hl)).
    rewrite (guarded_send_connected_eq net (mkSession ws (upper rid) l role) s1 _ Hl1).
    cbn [websocket sess_role].
    set (s2 := log _ s1).
    assert (Hl2 : heap s2 !! l = Some r1) by exact Hl1.
    destruct (websocket_disconnect_shape net (mkSession ws (upper rid) l role) s2 _ Hl2)
      as (res0 & s0 & Hrun & Hheap & _ & Hrooms & Hres).
    cbn [websocket sess_room sess_room_id] in *.
    assert (Hheap' : heap s0 = <[l := unbind ws r1]> (heap s)).
    { rewrite Hheap. cbn [heap s2 log]. rewrite Hheap1.
      apply list_insert_insert_eq. }
    assert (Hrooms' : rooms s0 = rooms s ∨ rooms s0 = delete (upper rid) (rooms s))
      by (cbn [rooms s2 log] in Hrooms; by rewrite Hrooms1 in Hrooms).
    destruct (net ws) as [[]|].
    2:{ rewrite Hrun. intros [= <- <-]. split; [done|].
        exists (unbind ws r1), None. split; [done|]. split; [done|].
        intros sess' ->. destruct Hres as [Hres|Hres]; discriminate. }
    all: intros [= <- <-]; (split; [left; exact Hrooms1|]);
      exists r1, (Some role); (split; [exact Hheap1|]); (split; [done|]);
      by intros sess' [= <-]. }
  destruct (host_ws r) as [h|] eqn:Hh; [destruct (guest_ws r) as [g|] eqn:Hg|].
  - rewrite (websocket_endpoint_full net ws rid s l r Hk Hl h g Hh Hg).
    intros [= <- <-]. split; [by left|]. by left.
  - pose proof (websocket_endpoint_bind_guest net ws rid s l r Hk Hl h Hh Hg) as Hb.
    assert (Hadm : admitted ws r (set_guest_ws (Some ws) r) (Some "guest"))
      by (apply admitted_guest; congruence).
    assert (Hgone : admitted ws r (unbind ws (set_guest_ws (Some ws) r)) None)
      by (apply admitted_guest_gone; congruence).
    destruct (net h) as [e|].
    + unfold websocket_endpoint, bind. rewrite Hb. intros [= <- <-].
      split; [by left|]. right.
      exists l, r, (set_guest_ws (Some ws) r), (Some "guest").
      split; [done|]. split; [done|]. split; [done|]. split; [done|].
      intros sess [=].
    + intros Hrun.
      destruct (Hshape "guest" _ _ eq_refl (or_intror (ex_intro _ h Hb)) Hadm Hgone Hrun)
        as (Hrooms & r' & role' & Hheap & Hadm' & Hsess).
      split; [done|]. right. by exists l, r, r', role'.
  - pose proof (websocket_endpoint_bind_host net ws rid s l r Hk Hl Hh) as Hb.
    assert (Hadm : admitted ws r (set_host_ws (Some ws) r) (Some "host"))
      by by apply admitted_host.
    assert (Hgone : admitted ws r (unbind ws (set_host_ws (Some ws) r)) None)
      by by apply admitted_host_gone.
    intros Hrun.
    destruct (Hshape "host" _ _ eq_refl (or_introl Hb) Hadm Hgone Hrun)
      as (Hrooms & r' & role' & Hheap & Hadm' & Hsess).
    split; [done|]. right. by exists l, r, r', role'.
Qed.

Lemma unbind_frame ws r :
  room_id (unbind ws r) = room_id r
  ∧ host_seed (unbind ws r) = host_seed r
  ∧ guest_seed (unbind ws r) = guest_seed r
  ∧ max_superpositions (unbind ws r) = max_superpositions r
  ∧ created_at (unbind ws r) = created_at r
  ∧ (∀ x, x ≠ ws →
       (host_ws r = Some x → host_ws (unbind ws r) = Some x)
       ∧ (guest_ws r = Some x → guest_ws (unbind ws r) = Some x))
  ∧ (∀ x, host_ws (unbind ws r) = Some x ∨ guest_ws (unbind ws r) = Some x →
          host_ws r = Some x ∨ guest_ws r = Some x).
Proof.
  unfold unbind.
  destruct (decide (host_ws r = Some ws)) as [Hh|Hh];
    [|destruct (decide (guest_ws r = Some ws)) as [Hg|Hg]]; simpl;
    repeat split; try done; try congruence; intros x [?|?]; auto; discriminate.
Qed.

Lemma admitted_frame ws r r' role :
  admitted ws r r' role →
  room_id r' = room_id r
  ∧ host_seed r' = host_seed r
  ∧ guest_seed r' = guest_seed r
  ∧ max_superpositions r' = max_superpositions r
  ∧ created_at r' = created_at r
  ∧ (∀ x, x ≠ ws →
       (host_ws r = Some x → host_ws r' = Some x)
       ∧ (guest_ws r = Some x → guest_ws r' = Some x))
  ∧ (∀ x, host_ws r' = Some x ∨ guest_ws r' = Some x →
          x = ws ∨ host_ws r = Some x ∨ guest_ws r = Some x)
  ∧ (role = Some "host" → host_ws r' = Some ws)
  ∧ (role = Some "guest" → guest_ws r' = Some ws)
  ∧ (distinct_slots r → host_ws r ≠ Some ws → guest_ws r ≠ Some ws →
     distinct_slots r').
Proof.
  intros [Hh|Hh Hg|Hh|Hh Hg]; unfold unbind, distinct_slots; simpl;
    repeat (case_decide; simpl); repeat split; try done; naive_solver.
Qed.

Lemma websocket_endpoint_after_bind net ws rid s sess s1 r1 :
  websocket_endpoint_bind net ws rid s = Some (Ret (Some sess), s1) →
  heap s1 !! sess_room sess = Some r1 →
  websocket_endpoint net ws rid s
  = match net (websocket sess) with
    | None =>
        Some (Ret (Some sess),
              log [SendJson (websocket sess)
                     (msg_connected (sess_role sess) (game_seed r1))] s1)
    | Some WebSocketDisconnect =>
        websocket_disconnect net sess
          (log [SendJson (websocket sess)
                  (msg_connected (sess_role sess) (game_seed r1))] s1)
    | Some e =>
        Some (Raise e,
              log [SendJson (websocket sess)
                     (msg_connected (sess_role sess) (game_seed r1))] s1)
    end.
Proof.
  intros Hb Hl1. unfold websocket_endpoint. rewrite (bind_Ret _ _ _ _ _ Hb).
  by apply guarded_send_connected_eq.
Qed.

Lemma websocket_endpoint_at_after_bind net ws rid s sess s1 r1 :
  websocket_endpoint_bind_at net ws rid s = Some (Ret (Some sess), s1) →
  heap s1 !! sess_room sess = Some r1 →
  websocket_endpoint_at net ws rid s
  = match net (websocket sess) with
    | None =>
        Some (Ret (Some sess),
              log [SendJson (websocket sess)
                     (msg_connected (sess_role sess) (game_seed r1))] s1)
    | Some WebSocketDisconnect =>
        websocket_disconnect net sess
          (log [SendJson (websocket sess)
                  (msg_connected (sess_role sess) (game_seed r1))] s1)
    | Some e =>
        Some (Raise e,
              log [SendJson (websocket sess)
                     (msg_connected (sess_role sess) (game_seed r1))] s1)
    end.
Proof.
  intros Hb Hl1. unfold websocket_endpoint_at. rewrite (bind_Ret _ _ _ _ _ Hb).
  by apply guarded_send_connected_eq.
Qed.

(** ** Admission, continued *)

(** X9: a connection attempt, however it ends, never displaces a
    connection that is already bound: in every room, a slot holding
    another socket still holds it afterwards, and identifiers, seeds,
    branch limits and ages are untouched.  It registers no room. *)
Theorem websocket_endpoint_keeps_peers net ws rid s res s' :
  websocket_endpoint net ws rid s = Some (res, s') →
  (∀ k l, rooms s' !! k = Some l → rooms s !! k = Some l)
  ∧ ∀ l r, heap s !! l = Some r →
      ∃ r', heap s' !! l = Some r'
            ∧ room_id r' = room_id r
            ∧ host_seed r' = host_seed r
            ∧ guest_seed r' = guest_seed r
            ∧ max_superpositions r' = max_superpositions r
            ∧ created_at r' = created_at r
            ∧ ∀ x, x ≠ ws →
                (host_ws r = Some x → host_ws r' = Some x)
                ∧ (guest_ws r = Some x → guest_ws r' = Some x).
Proof.
  intros Hrun. destruct (websocket_endpoint_shape _ _ _ _ _ _ Hrun) as (Hrooms & Hheap).
  split.
  - intros k l. destruct Hrooms as [->| ->]; [done|].
    by intros [_ ?]%lookup_delete_Some.
  - intros l r Hl.
    destruct Hheap as [[-> _]|(l0 & r0 & r' & role & Hk0 & Hl0 & -> & Hadm & _)].
    + exists r. by repeat split.
    + destruct (decide (l0 = l)) as [<-|Hne].
      * assert (r = r0) as -> by congruence.
        exists r'. split; [apply (heap_lookup_store _ _ _ _ Hl0)|].
        destruct (admitted_frame _ _ _ _ Hadm) as (?&?&?&?&?&Hkeep&_).
        do 5 (split; [done|]). exact Hkeep.
      * exists r. rewrite list_lookup_insert_ne by done. by repeat split.
Qed.

Lemma websocket_endpoint_keeps_peers_witness :
  ∃ res s',
    websocket_endpoint (fun _ => Some WebSocketDisconnect) 3%nat Sample.rid Sample.host_on
    = Some (res, s')
    ∧ ∃ r', heap s' !! 0%nat = Some r' ∧ host_ws r' = Some 1%nat.
Proof.
  assert (Hrun : websocket_endpoint (fun _ => Some WebSocketDisconnect) 3%nat Sample.rid
                   Sample.host_on
                 = Some (Raise WebSocketDisconnect,
                         exec (websocket_endpoint (fun _ => Some WebSocketDisconnect)
                                 3%nat Sample.rid) Sample.host_on))
    by (vm_compute; reflexivity).
  destruct (websocket_endpoint_keeps_peers _ _ _ _ _ _ Hrun) as (_ & Hkeep).
  destruct (Hkeep 0%nat _ eq_refl) as (r' & Hl & _ & _ & _ & _ & _ & Hslots).
  eexists _, _. split; [exact Hrun|]. exists r'. split; [exact Hl|].
  apply (Hslots 1%nat); [discriminate|reflexivity].
Defined.

(** X10: when a connection is admitted and its coroutine reaches the
    relay loop, the room existed under the identifier [rid] that
    [str.upper()] returned, the session records that identifier and
    the slot taken, the dictionary is unchanged, and the sockets saw
    exactly this: the accept, for a guest the [peer_joined] to the
    host, and last the [connected] confirmation with the role and the
    room's seed.  For an ASCII address [rid] is [upper] of it. *)
Theorem websocket_endpoint_confirms_role net ws rid s sess s' :
  websocket_endpoint_at net ws rid s = Some (Ret (Some sess), s') →
  (∃ l r,
    rooms s !! rid = Some l
    ∧ heap s !! l = Some r
    ∧ sess = mkSession ws rid l (sess_role sess)
    ∧ rooms s' = rooms s
    ∧ ((sess_role sess = "host"
        ∧ host_ws r = None
        ∧ heap s' = <[l := set_host_ws (Some ws) r]> (heap s)
        ∧ trace s'
          = (trace s ++ [Accept ws;
                         SendJson ws (msg_connected "host" (game_seed r))])%list)
       ∨ (sess_role sess = "guest"
          ∧ guest_ws r = None
          ∧ ∃ h, host_ws r = Some h
                 ∧ heap s' = <[l := set_guest_ws (Some ws) r]> (heap s)
                 ∧ trace s'
                   = (trace s ++ [Accept ws;
                                  SendJson h (msg_peer_joined (game_seed r));
                                  SendJson ws (msg_connected "guest" (game_seed r))])%list)))
  ∧ (∀ address, is_ascii address = true → upper address = rid →
       websocket_endpoint net ws address s = Some (Ret (Some sess), s')).
Proof.
  intros Hrun0. split.
  2:{ intros address _ Hid. rewrite websocket_endpoint_at_upper, Hid. exact Hrun0. }
  revert Hrun0.
  destruct (rooms s !! rid) as [l|] eqn:Hk.
  2:{ by rewrite (websocket_endpoint_at_not_found net ws rid s Hk). }
  destruct (heap s !! l) as [r|] eqn:Hl.
  2:{ unfold websocket_endpoint_at, websocket_endpoint_bind_at. py_run. discriminate. }
  assert (Hdead : ∀ sess0 s0 r0 res0 s0',
    heap s0 !! sess_room sess0 = Some r0 →
    websocket_disconnect net sess0 s0 = Some (res0, s0') →
    res0 ≠ Ret (Some sess)).
  { intros sess0 s0 r0 res0 s0' Hl0 Hrun.
    destruct (websocket_disconnect_shape net sess0 s0 r0 Hl0)
      as (res1 & s1 & Hrun1 & _ & _ & _ & Hres).
    rewrite Hrun in Hrun1. injection Hrun1 as -> ->.
    destruct Hres as [->| ->]; discriminate. }
  destruct (host_ws r) as [h|] eqn:Hh; [destruct (guest_ws r) as [g|] eqn:Hg|].
  - by rewrite (websocket_endpoint_at_full net ws rid s l r Hk Hl h g Hh Hg).
  - pose proof (websocket_endpoint_bind_at_guest net ws rid s l r Hk Hl h Hh Hg) as Hb.
    destruct (net h) as [e|] eqn:Hnh.
    { unfold websocket_endpoint_at, bind. by rewrite Hb. }
    erewrite websocket_endpoint_at_after_bind;
      [|exact Hb|apply (heap_lookup_store _ _ _ _ Hl)].
    cbn [websocket sess_role].
    destruct (net ws) as [[]|] eqn:Hn; try discriminate.
    + intros Hrun. exfalso. eapply Hdead; [|exact Hrun|done].
      apply (heap_lookup_store _ _ _ _ Hl).
    + intros [= <- <-]. exists l, r. split; [done|]. split; [done|]. split; [done|].
      split; [done|]. right. split; [done|]. split; [done|]. exists h.
      split; [done|]. split; [done|]. cbn [trace log store].
      by rewrite <- app_assoc.
  - pose proof (websocket_endpoint_bind_at_host net ws rid s l r Hk Hl Hh) as Hb.
    erewrite websocket_endpoint_at_after_bind;
      [|exact Hb|apply (heap_lookup_store _ _ _ _ Hl)].
    cbn [websocket sess_role].
    destruct (net ws) as [[]|] eqn:Hn; try discriminate.
    + intros Hrun. exfalso. eapply Hdead; [|exact Hrun|done].
      apply (heap_lookup_store _ _ _ _ Hl).
    + intros [= <- <-]. exists l, r. split; [done|]. split; [done|]. split; [done|].
      split; [done|]. left. split; [done|]. split; [done|]. split; [done|].
      cbn [trace log store]. by rewrite <- app_assoc.
Qed.

Lemma websocket_endpoint_confirms_role_witness :
  websocket_endpoint_at reliable 2%nat Sample.rid Sample.host_on
  = Some (Ret (Some Sample.guest_session), Sample.paired)
  ∧ ∃ l r,
      rooms Sample.host_on !! Sample.rid = Some l
      ∧ heap Sample.host_on !! l = Some r
      ∧ rooms Sample.paired = rooms Sample.host_on.
Proof.
  assert (Hrun : websocket_endpoint_at reliable 2%nat Sample.rid Sample.host_on
                 = Some (Ret (Some Sample.guest_session), Sample.paired))
    by (vm_compute; reflexivity).
  split; [exact Hrun|].
  destruct (websocket_endpoint_confirms_role _ _ _ _ _ _ Hrun)
    as ((l & r & Hk & Hl & _ & Hrooms & _) & _).
  exists l, r. split; [exact Hk|]. split; [exact Hl|exact Hrooms].
Defined.

(** ** Pairing, end to end *)

(** X11: on a room with both slots unbound, a join request followed by
    the connection of the host and then of the guest goes through, and
    all three parties hold the same seed: the one [join_room] returned
    is the one in the host's and the guest's [connected] messages and
    in the host's [peer_joined].  If the host connects before the join
    request, its [connected] message carries the seed the room had
    then (null when nobody had joined), and [peer_joined] brings the
    new one. *)
Theorem pairing_handshake s rid l r seed h g :
  rooms s !! upper rid = Some l →
  heap s !! l = Some r →
  host_ws r = None →
  guest_ws r = None →
  (∃ jr s1 s2 s3,
     join_room (mkJoinRoomRequest rid seed) s = Some (Ret jr, s1)
     ∧ websocket_endpoint reliable h rid s1
       = Some (Ret (Some (mkSession h (upper rid) l "host")), s2)
     ∧ websocket_endpoint reliable g rid s2
       = Some (Ret (Some (mkSession g (upper rid) l "guest")), s3)
     ∧ jrs_game_seed jr = Z.lxor (host_seed r) seed
     ∧ trace s3
       = (trace s
          ++ [Accept h;
              SendJson h (msg_connected "host" (Some (jrs_game_seed jr)));
              Accept g;
              SendJson h (msg_peer_joined (Some (jrs_game_seed jr)));
              SendJson g (msg_connected "guest" (Some (jrs_game_seed jr)))])%list
     ∧ heap s3 !! l
       = Some (set_guest_ws (Some g)
                 (set_host_ws (Some h) (set_guest_seed (Some seed) r))))
  ∧ (∃ jr s1 s2 s3,
       websocket_endpoint reliable h rid s
       = Some (Ret (Some (mkSession h (upper rid) l "host")), s1)
       ∧ join_room (mkJoinRoomRequest rid seed) s1 = Some (Ret jr, s2)
       ∧ websocket_endpoint reliable g rid s2
         = Some (Ret (Some (mkSession g (upper rid) l "guest")), s3)
       ∧ trace s3
         = (trace s
            ++ [Accept h;
                SendJson h (msg_connected "host" (game_seed r));
                Accept g;
                SendJson h (msg_peer_joined (Some (jrs_game_seed jr)));
                SendJson g (msg_connected "guest" (Some (jrs_game_seed jr)))])%list).
Proof.
  intros Hk Hl Hh Hg. split.
  - set (r1 := set_guest_seed (Some seed) r).
    set (s1 := store l r1 s).
    assert (Hl1 : heap s1 !! l = Some r1) by apply (heap_lookup_store _ _ _ _ Hl).
    set (r2 := set_host_ws (Some h) r1).
    set (s2 := log [Accept h; SendJson h (msg_connected "host" (game_seed r1))]
                   (store l r2 s1)).
    assert (Hl2 : heap s2 !! l = Some r2) by apply (heap_lookup_store _ _ _ _ Hl1).
    eexists _, s1, s2, _.
    split.
    { rewrite (join_room_found (mkJoinRoomRequest rid seed) s l r Hk Hl).
      unfold is_full. rewrite Hh. reflexivity. }
    split; [by apply (websocket_endpoint_host reliable h rid s1 l r1 Hk Hl1)|].
    split; [by apply (websocket_endpoint_guest reliable g rid s2 l r2 Hk Hl2 h)|].
    split; [done|]. split.
    + cbn [trace log store s2 s1]. by rewrite <- app_assoc.
    + apply (heap_lookup_store _ _ _ _ Hl2).
  - set (r1 := set_host_ws (Some h) r).
    set (s1 := log [Accept h; SendJson h (msg_connected "host" (game_seed r))]
                   (store l r1 s)).
    assert (Hl1 : heap s1 !! l = Some r1) by apply (heap_lookup_store _ _ _ _ Hl).
    set (r2 := set_guest_seed (Some seed) r1).
    set (s2 := store l r2 s1).
    assert (Hl2 : heap s2 !! l = Some r2) by apply (heap_lookup_store _ _ _ _ Hl1).
    eexists _, s1, s2, _.
    split; [by apply (websocket_endpoint_host reliable h rid s l r Hk Hl)|].
    split.
    { rewrite (join_room_found (mkJoinRoomRequest rid seed) s1 l r1 Hk Hl1).
      unfold is_full. cbn [guest_ws r1 set_host_ws]. rewrite Hg.
      rewrite andb_false_r. reflexivity. }
    split; [by apply (websocket_endpoint_guest reliable g rid s2 l r2 Hk Hl2 h)|].
    cbn [trace log store s2 s1]. by rewrite <- app_assoc.
Qed.

Lemma pairing_handshake_witness :
  rooms Sample.created !! upper Sample.rid = Some 0%nat
  ∧ ∃ jr s1 s2 s3,
      join_room (mkJoinRoomRequest Sample.rid 17) Sample.created = Some (Ret jr, s1)
      ∧ websocket_endpoint reliable 1%nat Sample.rid s1
        = Some (Ret (Some (mkSession 1%nat (upper Sample.rid) 0%nat "host")), s2)
      ∧ websocket_endpoint reliable 2%nat Sample.rid s2
        = Some (Ret (Some (mkSession 2%nat (upper Sample.rid) 0%nat "guest")), s3)
      ∧ jrs_game_seed jr = Z.lxor 42 17.
Proof.
  assert (Hk : rooms Sample.created !! upper Sample.rid = Some 0%nat)
    by (vm_compute; reflexivity).
  split; [exact Hk|].
  destruct (pairing_handshake Sample.created Sample.rid 0%nat _ 17 1%nat 2%nat
              Hk eq_refl eq_refl eq_refl)
    as ((jr & s1 & s2 & s3 & Hj & Hh & Hg & Hseed & _) & _).
  exists jr, s1, s2, s3.
  split; [exact Hj|]. split; [exact Hh|]. split; [exact Hg|exact Hseed].
Defined.

(** ** The relay loop *)

Lemma guarded_Some net sess body s x s' :
  guarded net sess body s = Some (Ret (Some x), s') → x = sess.
Proof.
  unfold guarded, try_except, bind, ret.
  destruct (body s) as [[[[]|e] s1]|]; [by intros [= <- <-]| |discriminate].
  destruct e; try discriminate.
  destruct (on_disconnect net sess s1) as [[[[]|e] s2]|]; discriminate.
Qed.

Lemma guarded_seq net sess (a b : M unit) s :
  guarded net sess (a ;; b) s
  = (running <- guarded net sess a ;;
     match running with
     | Some _ => guarded net sess b
     | None => ret None
     end) s.
Proof.
  unfold guarded, try_except, bind, ret.
  destruct (a s) as [[[[]|e] s1]|]; try done.
  destruct e; try done.
  by destruct (on_disconnect net sess s1) as [[[[]|e] s2]|].
Qed.

Lemma guarded_relay_loop net sess inbound s :
  guarded net sess (relay_loop net sess inbound) s = receive_all net sess inbound s.
Proof.
  revert s; induction inbound as [|x rest IH]; intros s; [done|].
  cbn [relay_loop receive_all]. rewrite guarded_seq.
  unfold websocket_receive, bind.
  destruct (guarded net sess (relay net sess x) s) as [[[[y|]|e] s1]|] eqn:Hg;
    try done.
  apply guarded_Some in Hg as ->. apply IH.
Qed.

(** X12: the coroutine as a whole, run on the events that arrive on
    its socket, does what the connection step followed by one resumption
    per event does: cutting it at [receive_json()] loses nothing. *)
Theorem websocket_session_unrolls net ws rid inbound s :
  websocket_session net ws rid inbound s
  = (running <- websocket_endpoint net ws rid ;;
     match running with
     | Some sess => receive_all net sess inbound
     | None => ret None
     end) s.
Proof.
  unfold websocket_session, websocket_endpoint, bind.
  destruct (websocket_endpoint_bind net ws rid s) as [[[[sess|]|e] s1]|]; try done.
  fold (bind (send_connected net sess) (fun _ => relay_loop net sess inbound)).
  rewrite guarded_seq. unfold bind.
  destruct (guarded net sess (send_connected net sess) s1) as [[[[y|]|e] s2]|] eqn:Hg;
    try done.
  apply guarded_Some in Hg as ->. apply guarded_relay_loop.
Qed.

(** X13: with a peer bound and its socket taking every send, the
    messages a connection receives reach the peer unchanged, each once
    and in the order of arrival, and nothing else is sent; rooms and
    dictionary stay as they are.  Without a peer they all vanish. *)
Theorem relay_keeps_order net sess s r (msgs : list Json) :
  heap s !! sess_room sess = Some r →
  match get_other_ws r (websocket sess) with
  | Some peer =>
      net peer = None →
      receive_all net sess (Ret <$> msgs) s
      = Some (Ret (Some sess), log (SendJson peer <$> msgs) s)
  | None =>
      receive_all net sess (Ret <$> msgs) s = Some (Ret (Some sess), s)
  end.
Proof.
  intros Hl. destruct (get_other_ws r (websocket sess)) as [peer|] eqn:Hpeer.
  - intros Hnet. revert s Hl. induction msgs as [|m msgs IH]; intros s Hl.
    + cbn. unfold ret, log. rewrite app_nil_r. by destruct s.
    + cbn [fmap list_fmap receive_all]. unfold bind.
      rewrite (websocket_receive_eq net sess s r Hl), Hpeer, Hnet.
      rewrite IH by exact Hl. unfold log. cbn [rooms heap trace].
      by rewrite <- app_assoc.
  - revert s Hl. induction msgs as [|m msgs IH]; intros s Hl; [done|].
    cbn [fmap list_fmap receive_all]. unfold bind.
    rewrite (websocket_receive_eq net sess s r Hl), Hpeer. by apply IH.
Qed.

Lemma relay_keeps_order_witness :
  receive_all reliable Sample.host_session
    (Ret <$> [JStr "offer"; JStr "candidate"]) Sample.paired
  = Some (Ret (Some Sample.host_session),
          log [SendJson 2%nat (JStr "offer"); SendJson 2%nat (JStr "candidate")]
              Sample.paired).
Proof.
  pose proof (relay_keeps_order reliable Sample.host_session Sample.paired _
                [JStr "offer"; JStr "candidate"] sample_paired_room) as H.
  apply H. reflexivity.
Defined.

(** X14: failures while relaying.  If the send to the peer raises
    [WebSocketDisconnect], the handler of the sender runs its own
    [except] block: the slot of the sender is cleared, the peer stays
    bound.  Any other exception, from the send or from
    [receive_json()], ends the handler at once and clears nothing. *)
Theorem relay_failures net sess s r peer data :
  heap s !! sess_room sess = Some r →
  get_other_ws r (websocket sess) = Some peer →
  (net peer = Some WebSocketDisconnect →
   ∃ res s',
     websocket_receive net sess (Ret data) s = Some (res, s')
     ∧ heap s' = <[sess_room sess := unbind (websocket sess) r]> (heap s)
     ∧ trace s' = (trace s ++ [SendJson peer data])%list
     ∧ (res = Ret None ∨ res = Raise (KeyError (sess_room_id sess))))
  ∧ (∀ e, e ≠ WebSocketDisconnect → net peer = Some e →
       websocket_receive net sess (Ret data) s
       = Some (Raise e, log [SendJson peer data] s))
  ∧ (∀ e, e ≠ WebSocketDisconnect →
       websocket_receive net sess (Raise e) s = Some (Raise e, s)).
Proof.
  intros Hl Hpeer. rewrite (websocket_receive_eq net sess s r Hl), Hpeer.
  split; [|split].
  - intros ->. rewrite on_disconnect_then_None.
    destruct (websocket_disconnect_shape net sess (log [SendJson peer data] s) r Hl)
      as (res & s' & Hrun & Hheap & Htrace & _ & Hres).
    by exists res, s'.
  - intros e Hne ->. by destruct e.
  - intros e Hne. unfold websocket_receive, guarded, relay, try_except, bind, raise.
    by destruct e.
Qed.

Lemma relay_failures_witness :
  ∃ res s',
    websocket_receive (fun _ => Some WebSocketDisconnect) Sample.host_session
      (Ret (JStr "offer")) Sample.paired = Some (res, s')
    ∧ trace s' = (trace Sample.paired ++ [SendJson 2%nat (JStr "offer")])%list.
Proof.
  destruct (relay_failures (fun _ => Some WebSocketDisconnect) Sample.host_session
              Sample.paired _ 2%nat (JStr "offer") sample_paired_room eq_refl)
    as (Hwsd & _).
  destruct (Hwsd eq_refl) as (res & s' & Hrun & _ & Htrace & _).
  exists res, s'. split; [exact Hrun|exact Htrace].
Defined.


(** X15: the [except] block deletes whatever the dictionary holds under
    the identifier of the handler.  When the handler's own room was
    swept and a later room drew the same identifier, the last
    disconnect from the old room unregisters the new one: no
    identifier leads to it any more, while the room itself stays in
    the store as it was. *)
Theorem disconnect_unregisters_namesake net sess s r l' :
  consistent s →
  heap s !! sess_room sess = Some r →
  rooms s !! sess_room_id sess = Some l' →
  l' ≠ sess_room sess →
  host_ws (unbind (websocket sess) r) = None →
  guest_ws (unbind (websocket sess) r) = None →
  ∃ s',
    websocket_disconnect net sess s = Some (Ret None, s')
    ∧ (∀ k, rooms s' !! k ≠ Some l')
    ∧ heap s' !! l' = heap s !! l'
    ∧ (∀ req, upper (jrq_room_id req) = sess_room_id sess →
         join_room req s' = Some (Raise (HTTPException 404 "Room not found"), s')).
Proof.
  intros Hcons Hl Hk Hne Hh Hg.
  rewrite (websocket_disconnect_eq net sess s r Hl), Hh, Hg, Hk. simpl.
  eexists. split; [done|]. cbn [rooms heap store]. split; [|split].
  - intros k Hk'. apply lookup_delete_Some in Hk' as [Hnk Hk'].
    destruct (Hcons _ _ Hk) as (r1 & Hr1 & Hid1).
    destruct (Hcons _ _ Hk') as (r2 & Hr2 & Hid2). congruence.
  - by apply list_lookup_insert_ne.
  - intros req Hreq. apply join_room_not_found. cbn [rooms].
    rewrite Hreq. apply lookup_delete_eq.
Qed.

Lemma disconnect_unregisters_namesake_witness :
  let s := exec (create_room (2 * one_hour) (2 * one_hour) [Sample.token]
                   Sample.request) Sample.host_unjoined in
  rooms s !! Sample.rid = Some 1%nat
  ∧ ∃ s', websocket_disconnect reliable Sample.host_session s = Some (Ret None, s')
          ∧ ∀ k, rooms s' !! k ≠ Some 1%nat.
Proof.
  intros s.
  assert (Hrun : create_room (2 * one_hour) (2 * one_hour) [Sample.token]
                   Sample.request Sample.host_unjoined
                 = Some (Ret {| crs_room_id := Sample.rid; crs_player_color := "white";
                                crs_max_superpositions := 2 |}, s))
    by (vm_compute; reflexivity).
  assert (Hcons : consistent s).
  { refine (create_room_consistent _ _ _ _ _ _ _ _ Hrun).
    refine (websocket_endpoint_consistent reliable 1%nat Sample.rid Sample.created
              (Ret (Some Sample.host_session)) _ _ _).
    - exact (create_room_consistent _ _ _ _ _ _ _ consistent_empty sample_created).
    - vm_compute. reflexivity. }
  assert (Hk : rooms s !! Sample.rid = Some 1%nat) by (vm_compute; reflexivity).
  split; [exact Hk|].
  destruct (disconnect_unregisters_namesake reliable Sample.host_session s _ 1%nat
              Hcons eq_refl Hk) as (s' & Hdis & Hgone & _).
  - discriminate.
  - reflexivity.
  - reflexivity.
  - exists s'. split; [exact Hdis|exact Hgone].
Defined.

(** ** Status endpoints and shutdown *)

Lemma rooms_size_after_sweep now s res s1 :
  cleanup_old_rooms now s = Some (res, s1) → (size (rooms s1) ≤ size (rooms s))%nat.
Proof.
  intros (_ & _ & Hsub)%cleanup_old_rooms_frame.
  apply map_subseteq_size, map_subseteq_spec. exact Hsub.
Qed.

Lemma join_room_rooms req s res s' :
  join_room req s = Some (res, s') → rooms s' = rooms s.
Proof.
  destruct (rooms s !! upper (jrq_room_id req)) as [l|] eqn:Hk.
  - destruct (heap s !! l) as [r|] eqn:Hl.
    + rewrite (join_room_found _ _ _ _ Hk Hl).
      by destruct (is_full r); intros [= <- <-].
    + unfold join_room. py_run. discriminate.
  - rewrite (join_room_not_found _ _ Hk). by intros [= <- <-].
Qed.

(** X16: the two status endpoints change nothing and report the same
    number, the number of registered rooms.  A [create_room] that
    returns raises that number by at most one and leaves it at one or
    more; [join_room] never changes it. *)
Theorem status_counts_rooms s :
  health_check s
  = Some (Ret (JObj [("status", JStr "ok");
                     ("rooms", JInt (Z.of_nat (size (rooms s))))]), s)
  ∧ (∃ name version status endpoints,
       root s = Some (Ret (JObj [name; version; status; endpoints;
                                 ("active_rooms", JInt (Z.of_nat (size (rooms s))))]),
                      s))
  ∧ (∀ now_sweep now_init draws req resp s',
       create_room now_sweep now_init draws req s = Some (Ret resp, s') →
       (1 ≤ size (rooms s') ≤ S (size (rooms s)))%nat)
  ∧ (∀ req res s', join_room req s = Some (res, s') →
                   size (rooms s') = size (rooms s)).
Proof.
  split; [done|]. split; [by eexists _, _, _, _|]. split.
  - intros now_sweep now_init draws req resp s' Hcreate.
    destruct (create_room_inv _ _ _ _ _ _ _ Hcreate)
      as (s1 & rid & Hsweep & Hfree & _ & _ & ->).
    cbn [rooms]. rewrite (map_size_insert_None _ _ _ Hfree).
    pose proof (rooms_size_after_sweep _ _ _ _ Hsweep). lia.
  - intros req res s' Hjoin.
    by rewrite (join_room_rooms _ _ _ _ Hjoin).
Qed.

(** X17: shutdown empties the dictionary and nothing else.  From then
    on [join_room] answers "Room not found", a new connection is closed
    with 4004 and the health check reports no room.  Coroutines that
    are still running keep their room: they go on relaying, and the
    one whose disconnect empties its room ends with [KeyError]. *)
Theorem lifespan_shutdown_clears s :
  let s' := {| rooms := ∅; heap := heap s; trace := trace s |} in
  (∃ printed, lifespan_shutdown s = Some (Ret printed, s'))
  ∧ (∀ req, join_room req s'
            = Some (Raise (HTTPException 404 "Room not found"), s'))
  ∧ (∀ net ws rid,
       websocket_endpoint net ws rid s'
       = Some (Ret None, log [Close ws 4004 "Room not found"] s'))
  ∧ health_check s' = Some (Ret (JObj [("status", JStr "ok"); ("rooms", JInt 0)]), s')
  ∧ (∀ net sess r peer data,
       heap s !! sess_room sess = Some r →
       get_other_ws r (websocket sess) = Some peer →
       net peer = None →
       websocket_receive net sess (Ret data) s'
       = Some (Ret (Some sess), log [SendJson peer data] s'))
  ∧ (∀ net sess r,
       heap s !! sess_room sess = Some r →
       host_ws (unbind (websocket sess) r) = None →
       guest_ws (unbind (websocket sess) r) = None →
       websocket_disconnect net sess s'
       = Some (Raise (KeyError (sess_room_id sess)),
               store (sess_room sess) (unbind (websocket sess) r) s')).
Proof.
  intros s'. split; [by eexists|]. split; [|split; [|split; [|split]]].
  - intros req. apply join_room_not_found. apply lookup_empty.
  - intros net ws rid. apply websocket_endpoint_not_found. apply lookup_empty.
  - unfold health_check, rooms_len, bind, ret. cbn [rooms s'].
    by rewrite map_size_empty.
  - intros net sess r peer data Hl Hpeer Hnet.
    rewrite (websocket_receive_eq net sess s' r Hl), Hpeer, Hnet. done.
  - intros net sess r Hl Hh Hg.
    rewrite (websocket_disconnect_eq net sess s' r Hl), Hh, Hg. cbn [rooms s'].
    by rewrite lookup_empty.
Qed.

(** ** Every reachable world is in order *)

Lemma websocket_receive_shape net sess inbound s r res s' :
  heap s !! sess_room sess = Some r →
  websocket_receive net sess inbound s = Some (res, s') →
  heap s' = heap s
  ∨ (heap s' = <[sess_room sess := unbind (websocket sess) r]> (heap s)
     ∧ ∀ x, res ≠ Ret (Some x)).
Proof.
  intros Hl.
  assert (Hdis : ∀ s0, heap s0 = heap s →
    websocket_disconnect net sess s0 = Some (res, s') →
    heap s' = <[sess_room sess := unbind (websocket sess) r]> (heap s)
    ∧ ∀ x, res ≠ Ret (Some x)).
  { intros s0 Hs0 Hrun.
    assert (Hl0 : heap s0 !! sess_room sess = Some r) by by rewrite Hs0.
    destruct (websocket_disconnect_shape net sess s0 r Hl0)
      as (res1 & s1 & Hrun1 & Hheap & _ & _ & Hres).
    rewrite Hrun in Hrun1. injection Hrun1 as -> ->. rewrite Hheap, Hs0.
    split; [done|]. intros x. destruct Hres as [->| ->]; discriminate. }
  destruct inbound as [data|e].
  - rewrite (websocket_receive_eq net sess s r Hl).
    destruct (get_other_ws r (websocket sess)) as [peer|]; [|by intros [= <- <-]; left].
    destruct (net peer) as [[]|]; try (by intros [= <- <-]; left).
    rewrite on_disconnect_then_None. intros Hrun. right.
    eapply Hdis; [|exact Hrun]. done.
  - destruct e as [c d| |k|n];
      try (unfold websocket_receive, guarded, relay, try_except, bind, raise;
           by intros [= <- <-]; left).
    intros Hrun. right. eapply Hdis; [|exact Hrun]. done.
Qed.

Lemma elem_of_others ws (l : list Session) x :
  x ∈ others ws l ↔ x ∈ l ∧ websocket x ≠ ws.
Proof.
  unfold others. rewrite !list_elem_of_In, filter_In, negb_true_iff, Nat.eqb_neq.
  done.
Qed.

Lemma session_ok_store s s' sess l0 r0 r0' :
  session_ok s sess →
  heap s !! l0 = Some r0 →
  heap s' = <[l0 := r0']> (heap s) →
  room_id r0' = room_id r0 →
  (host_ws r0 = Some (websocket sess) → host_ws r0' = Some (websocket sess)) →
  (guest_ws r0 = Some (websocket sess) → guest_ws r0' = Some (websocket sess)) →
  session_ok s' sess.
Proof.
  intros (r & Hl & Hid & Hslot) Hl0 Hheap Hid0 Hh Hg. unfold session_ok.
  rewrite Hheap.
  destruct (decide (l0 = sess_room sess)) as [->|Hne].
  - assert (r = r0) as -> by congruence.
    exists r0'. split; [apply (heap_lookup_store _ _ _ _ Hl0)|].
    split; [congruence|]. destruct Hslot as [[? ?]|[? ?]]; auto.
  - exists r. by rewrite list_lookup_insert_ne.
Qed.

Lemma session_ok_heap s s' sess :
  session_ok s sess → heap s' = heap s → session_ok s' sess.
Proof. intros (r & Hl & H) Hh. exists r. by rewrite Hh. Qed.

Lemma room_ok_frame r r' :
  room_ok r →
  room_id r' = room_id r →
  max_superpositions r' = max_superpositions r →
  distinct_slots r' →
  room_ok r'.
Proof. intros (Hm & Hu & Hlen & _) Hid Hmax Hd. unfold room_ok. by rewrite Hid, Hmax. Qed.

Lemma world_ok_initial : world_ok initial.
Proof.
  split; [apply consistent_empty|]. split; [|split].
  - intros l r Hl. cbn in Hl. by rewrite lookup_nil in Hl.
  - intros sess Hin. by apply elem_of_nil in Hin.
  - intros a b Hin. by apply elem_of_nil in Hin.
Qed.

Lemma world_ok_create w now_sweep now_init draws req res s' :
  world_ok w →
  create_room now_sweep now_init draws req (server w) = Some (res, s') →
  world_ok {| server := s'; sessions := sessions w; handles := handles w |}.
Proof.
  intros (Hcons & Hrooms & Hsess & Huniq) Hrun.
  destruct (create_room_never_raises _ _ _ _ _ _ _ Hrun) as [resp ->].
  pose proof (create_room_consistent _ _ _ _ _ _ _ Hcons Hrun) as Hcons'.
  destruct (create_room_inv _ _ _ _ _ _ _ Hrun)
    as (s1 & rid & Hsweep & Hfree & (token & _ & Hrid) & _ & ->).
  destruct (cleanup_old_rooms_frame _ _ _ _ Hsweep) as (Hheap & _ & _).
  split; [done|]. cbn [server sessions handles heap] in *. rewrite Hheap.
  split; [|split; [|done]].
  - intros l r [Hl|[_ Hl]]%lookup_app_Some; [by eapply Hrooms|].
    apply list_lookup_singleton_Some in Hl as [_ <-]. split.
    + split; [apply clamp_range|]. cbn [room_id Room_init].
      split; [rewrite Hrid; apply generate_room_id_upper|].
      split; [rewrite Hrid; apply generate_room_id_length|].
      apply distinct_slots_init.
    + intros x [?|?]; discriminate.
  - intros sess Hin. destruct (Hsess sess Hin) as (Hh & r & Hl & Hrest).
    split; [done|]. exists r. split; [|done]. by apply lookup_app_l_Some.
Qed.

Lemma world_ok_join w req res s' :
  world_ok w →
  join_room req (server w) = Some (res, s') →
  world_ok {| server := s'; sessions := sessions w; handles := handles w |}.
Proof.
  intros (Hcons & Hrooms & Hsess & Huniq) Hrun.
  pose proof (join_room_consistent _ _ _ _ Hcons Hrun) as Hcons'.
  split; [done|]. cbn [server sessions handles] in *.
  destruct (rooms (server w) !! upper (jrq_room_id req)) as [l0|] eqn:Hk.
  2:{ rewrite (join_room_not_found _ _ Hk) in Hrun. injection Hrun as <- <-.
      by split; [|split]. }
  destruct (heap (server w) !! l0) as [r0|] eqn:Hl0.
  2:{ revert Hrun. unfold join_room. py_run. discriminate. }
  rewrite (join_room_found _ _ _ _ Hk Hl0) in Hrun.
  destruct (is_full r0); injection Hrun as <- <-; [by split; [|split]|].
  destruct (Hrooms _ _ Hl0) as (Hok0 & Hin0).
  split; [|split; [|done]].
  - intros l r. cbn [heap store].
    destruct (decide (l0 = l)) as [<-|Hne].
    + rewrite (heap_lookup_store _ _ _ _ Hl0). intros [= <-].
      split; [|exact Hin0]. apply (room_ok_frame r0); try done. apply Hok0.
    + rewrite list_lookup_insert_ne by done. apply Hrooms.
  - intros sess Hin. destruct (Hsess sess Hin) as (Hh & Hok). split; [done|].
    by eapply (session_ok_store (server w) _ sess l0 r0 _ Hok Hl0).
Qed.

Lemma world_ok_connect w net ws rid res s' :
  world_ok w →
  ws ∉ handles w →
  websocket_endpoint net ws rid (server w) = Some (res, s') →
  world_ok {| server := s'; sessions := after_connect res (sessions w);
              handles := ws :: handles w |}.
Proof.
  intros (Hcons & Hrooms & Hsess & Huniq) Hfresh Hrun.
  pose proof (websocket_endpoint_consistent _ _ _ _ _ _ Hcons Hrun) as Hcons'.
  destruct (websocket_endpoint_shape _ _ _ _ _ _ Hrun)
    as (_ & [[Hheap ->]|(l0 & r0 & r' & role & Hk0 & Hl0 & Hheap & Hadm & Hres)]).
  - split; [done|]. cbn [server sessions handles after_connect].
    split; [|split; [|done]].
    + intros l r Hl. rewrite Hheap in Hl. destruct (Hrooms _ _ Hl) as (Hok & Hin).
      split; [done|]. intros x Hx. right. by apply Hin.
    + intros sess Hin. destruct (Hsess _ Hin) as (Hh & Hok).
      split; [by right|]. by apply (session_ok_heap (server w)).
  - destruct (Hrooms _ _ Hl0) as (Hok0 & Hin0).
    assert (Hnh : host_ws r0 ≠ Some ws) by (intros E; apply Hfresh, Hin0; by left).
    assert (Hng : guest_ws r0 ≠ Some ws) by (intros E; apply Hfresh, Hin0; by right).
    destruct (admitted_frame _ _ _ _ Hadm)
      as (Hid & _ & _ & Hmax & _ & Hkeep & Hslots & Hrh & Hrg & Hdist).
    assert (Hold : ∀ sess, sess ∈ sessions w →
              websocket sess ∈ ws :: handles w ∧ session_ok s' sess).
    { intros sess Hin. destruct (Hsess _ Hin) as (Hh & Hok).
      split; [by right|].
      assert (websocket sess ≠ ws) as Hne by (intros E; by rewrite E in Hh).
      eapply (session_ok_store (server w) s' sess l0 r0 r' Hok Hl0 Hheap Hid);
        by apply Hkeep. }
    split; [done|]. cbn [server sessions handles].
    split; [|split].
    + intros l r. rewrite Hheap.
      destruct (decide (l0 = l)) as [<-|Hne].
      * rewrite (heap_lookup_store _ _ _ _ Hl0). intros [= <-]. split.
        -- apply (room_ok_frame r0); try done. apply Hdist; try done. apply Hok0.
        -- intros x Hx. destruct (Hslots x Hx) as [->|Hx0]; [by left|].
           right. by apply Hin0.
      * rewrite list_lookup_insert_ne by done. intros Hl.
        destruct (Hrooms _ _ Hl) as (Hok & Hin). split; [done|].
        intros x Hx. right. by apply Hin.
    + destruct res as [[sess0|]|e]; cbn [after_connect]; try exact Hold.
      intros sess [->|Hin]%elem_of_cons; [|by apply Hold].
      destruct (Hres sess0 eq_refl) as (Hrole & Hsess0).
      rewrite Hsess0. cbn [websocket]. split; [by left|].
      exists r'. cbn [sess_room sess_room_id sess_role websocket].
      split; [rewrite Hheap; apply (heap_lookup_store _ _ _ _ Hl0)|].
      destruct (Hcons _ _ Hk0) as (r0' & Hl0' & Hid0).
      split; [congruence|].
      destruct Hadm; try discriminate; injection Hrole as <-.
      * left. split; [done|]. by apply Hrh.
      * right. split; [done|]. by apply Hrg.
    + destruct res as [[sess0|]|e]; cbn [after_connect]; try exact Huniq.
      destruct (Hres sess0 eq_refl) as (_ & Hsess0).
      assert (Hws0 : websocket sess0 = ws) by (by rewrite Hsess0).
      intros a b [->|Ha]%elem_of_cons [->|Hb]%elem_of_cons Hab; try done.
      * exfalso. apply Hfresh. rewrite <- Hws0, Hab. by apply Hsess.
      * exfalso. apply Hfresh. rewrite <- Hws0, <- Hab. by apply Hsess.
      * by apply Huniq.
Qed.

Lemma world_ok_receive w net sess inbound res s' :
  world_ok w →
  sess ∈ sessions w →
  websocket_receive net sess inbound (server w) = Some (res, s') →
  world_ok {| server := s'; sessions := after_receive sess res (sessions w);
              handles := handles w |}.
Proof.
  intros (Hcons & Hrooms & Hsess & Huniq) Hin Hrun.
  pose proof (websocket_receive_consistent _ _ _ _ _ _ Hcons Hrun) as Hcons'.
  destruct (Hsess _ Hin) as (Hh & r & Hl & Hid & Hslot).
  assert (Hsub : ∀ x, x ∈ after_receive sess res (sessions w) → x ∈ sessions w).
  { intros x. unfold after_receive.
    destruct res as [[?|]|?]; try done; by intros [? _]%elem_of_others. }
  split; [done|]. cbn [server sessions handles].
  destruct (websocket_receive_shape _ _ _ _ _ _ _ Hl Hrun) as [Hheap|[Hheap Hres]].
  - split; [|split].
    + intros l0 r0 Hl0. rewrite Hheap in Hl0. by eapply Hrooms.
    + intros x Hx%Hsub. destruct (Hsess _ Hx) as (? & Hok).
      split; [done|]. by apply (session_ok_heap (server w)).
    + intros a b Ha%Hsub Hb%Hsub. by apply Huniq.
  - destruct (Hrooms _ _ Hl) as (Hok0 & Hin0).
    destruct (unbind_frame (websocket sess) r) as (Uid & _ & _ & Umax & _ & Ukeep & Uin).
    split; [|split].
    + intros l0 r0. rewrite Hheap.
      destruct (decide (sess_room sess = l0)) as [<-|Hne].
      * rewrite (heap_lookup_store _ _ _ _ Hl). intros [= <-]. split.
        -- apply (room_ok_frame r); try done.
           apply distinct_slots_unbind, Hok0.
        -- intros x Hx. by apply Hin0, Uin.
      * rewrite list_lookup_insert_ne by done. apply Hrooms.
    + intros x Hx.
      assert (x ∈ sessions w ∧ websocket x ≠ websocket sess) as [Hx' Hne].
      { revert Hx. unfold after_receive. destruct res as [[y|]|e];
          try apply elem_of_others. by destruct (Hres y). }
      destruct (Hsess _ Hx') as (? & Hok). split; [done|].
      eapply (session_ok_store (server w) s' x _ r _ Hok Hl Hheap Uid);
        by apply Ukeep.
    + intros a b Ha%Hsub Hb%Hsub. by apply Huniq.
Qed.

(** X18: every world reached from the empty server by the entry
    points, each new connection coming with a handle of its own, is in
    order: every registered identifier leads to the room that carries
    it; every room has a branch limit in 1..5, an upper-case identifier
    of at most 8 characters and different connections in its two
    slots; and every waiting coroutine holds the room it was admitted
    to, with its socket in the slot of its role. *)
Theorem reachable_world_ok w : reachable w → world_ok w.
Proof.
  induction 1 as [|w w' _ IH Hstep]; [apply world_ok_initial|].
  destruct Hstep.
  - by eapply world_ok_create.
  - by eapply world_ok_join.
  - by eapply world_ok_connect.
  - by eapply world_ok_receive.
Qed.

Lemma reachable_world_ok_witness :
  reachable {| server := Sample.host_unjoined; sessions := [Sample.host_session];
               handles := [1%nat] |}
  ∧ world_ok {| server := Sample.host_unjoined; sessions := [Sample.host_session];
                handles := [1%nat] |}.
Proof.
  assert (Hreach : reachable {| server := Sample.host_unjoined;
                                sessions := [Sample.host_session];
                                handles := [1%nat] |}).
  { eapply reachable_step.
    - eapply reachable_step; [apply reachable_initial|].
      apply (step_create 0 0 [Sample.token] Sample.request initial _ _ sample_created).
    - apply (step_connect reliable 1%nat Sample.rid
               {| server := Sample.created; sessions := []; handles := [] |}
               (Ret (Some Sample.host_session)) Sample.host_unjoined).
      + apply not_elem_of_nil.
      + vm_compute. reflexivity. }
  split; [exact Hreach|]. exact (reachable_world_ok _ Hreach).
Defined.


